(** * Bitunix -> TradeZella exporter: a shallow embedding of
      [bitunix_to_tradezella.py] and the properties of its signer, protocol
      client, checkpoint store, normalizer and orchestrator.

    Conventions of the embedding.
    - A Python [str] is a [string]: the bytes of its UTF-8 encoding, so that
      [s.encode('utf-8')] is the identity and the code-point order Python uses
      to compare strings is the byte-wise lexicographic order.
    - A Python [int] is a [Z].
    - A raised exception is a value of [result]; every [try]/[except] of the
      source is a [match] on it.
    - The clock, the random generator and the remote server are read from a
      [world]; the local files from a [disk].
    - [hashlib.sha256] and [datetime.fromtimestamp] are written out;
      the parts of CPython that depend on Unicode tables, on floats or on a
      grammar of their own ([json], [str.upper], [int(str)],
      [datetime.fromisoformat]) are the fields of the class [PyLib].

    Left out: log records, failures of the file system, Python floats, and
    files that are not JSON or hold values of other types than the program
    expects. *)

From stdpp Require Import gmap strings list sorting.
From Stdlib Require Import ZArith Ascii DecimalString.

Set Warnings "-register-all".
Local Open Scope Z_scope.

(** ** Exceptions *)

Inductive exn :=
| FileNotFoundError
| KeyError
| ValueError
| TypeError
| AttributeError
| OverflowError
| UnboundLocalError.

Inductive result (A : Type) :=
| Return (a : A)
| Raise (e : exn).
Arguments Return {A} a.
Arguments Raise {A} e.

Definition bind {A B} (m : result A) (k : A → result B) : result B :=
  match m with
  | Return a => k a
  | Raise e => Raise e
  end.

Notation "'let*' x ':=' m 'in' k" := (bind m (fun x => k))
  (at level 10, x pattern, m at level 100, k at level 200).

Fixpoint mapM {A B} (f : A → result B) (l : list A) : result (list B) :=
  match l with
  | [] => Return []
  | x :: l' =>
      let* y := f x in
      let* ys := mapM f l' in
      Return (y :: ys)
  end.

(** ** Bytes, hexadecimal and decimal text *)

Definition byte_of_ascii (c : ascii) : Z := Z.of_N (N_of_ascii c).
Definition ascii_of_byte (b : Z) : ascii := ascii_of_N (Z.to_N (b mod 256)).

Definition bytes_of_string (s : string) : list Z :=
  byte_of_ascii <$> String.list_ascii_of_string s.

(** One lowercase hexadecimal digit, as [bytes.hex()] and [hexdigest()] print it. *)
Definition hex_digit (d : Z) : ascii :=
  if d <? 10 then ascii_of_byte (48 + d) else ascii_of_byte (87 + d).

Definition hex_of_byte (b : Z) : string :=
  String (hex_digit (b / 16)) (String (hex_digit (b mod 16)) EmptyString).

Fixpoint hex_of_bytes (bs : list Z) : string :=
  match bs with
  | [] => EmptyString
  | b :: bs' => hex_of_byte b +:+ hex_of_bytes bs'
  end.

(** [str(n)] for an [int] [n]. *)
Definition str_of_int (n : Z) : string := NilZero.string_of_int (Z.to_int n).

(** [n] bytes of [x], most significant first. *)
Fixpoint be_bytes (n : nat) (x : Z) : list Z :=
  match n with
  | O => []
  | S n' => (x / 256 ^ Z.of_nat n') mod 256 :: be_bytes n' x
  end.

(** ** hashlib.sha256 (FIPS 180-4) on 32-bit words held in [Z] *)

Module Sha256.

Definition mask32 : Z := 0xFFFFFFFF.
Definition add32 (a b : Z) : Z := Z.land (a + b) mask32.
Definition rotr (n x : Z) : Z :=
  Z.land (Z.lor (Z.shiftr x n) (Z.shiftl x (32 - n))) mask32.
Definition not32 (x : Z) : Z := Z.lxor x mask32.

Definition Ch (x y z : Z) : Z := Z.lxor (Z.land x y) (Z.land (not32 x) z).
Definition Maj (x y z : Z) : Z :=
  Z.lxor (Z.lxor (Z.land x y) (Z.land x z)) (Z.land y z).
Definition Sigma0 (x : Z) : Z := Z.lxor (Z.lxor (rotr 2 x) (rotr 13 x)) (rotr 22 x).
Definition Sigma1 (x : Z) : Z := Z.lxor (Z.lxor (rotr 6 x) (rotr 11 x)) (rotr 25 x).
Definition sigma0 (x : Z) : Z := Z.lxor (Z.lxor (rotr 7 x) (rotr 18 x)) (Z.shiftr x 3).
Definition sigma1 (x : Z) : Z := Z.lxor (Z.lxor (rotr 17 x) (rotr 19 x)) (Z.shiftr x 10).

(** The integer part of the [k]-th root of [x], by bisection on [bits] bits. *)
Fixpoint iroot (k x : Z) (bits : nat) (acc : Z) : Z :=
  match bits with
  | O => acc
  | S b =>
      let c := acc + 2 ^ Z.of_nat b in
      if c ^ k <=? x then iroot k x b c else iroot k x b acc
  end.

(** The first 32 bits of the fractional part of the [k]-th root of [p]. *)
Definition root_fraction (k p : Z) : Z :=
  Z.land (iroot k (p * 2 ^ (32 * k)) 36 0) mask32.

Definition is_prime (p : Z) : bool :=
  forallb (λ d, negb (p mod Z.of_nat d =? 0)) (seq 2 (Z.to_nat p - 2)).

(** The primes up to 311: the first 64. *)
Definition primes : list Z :=
  filter (λ p, is_prime p = true) ((λ i, Z.of_nat i) <$> seq 2 310).

(** The round constants: the cube roots of the first 64 primes. *)
Definition K : list Z := Eval vm_compute in root_fraction 3 <$> primes.

(** The initial hash value: the square roots of the first 8 primes. *)
Definition H0 : list Z := Eval vm_compute in root_fraction 2 <$> take 8 primes.

(** Padding: a one bit, zeros up to 56 modulo 64, the bit length on 8 bytes. *)
Definition pad (msg : list Z) : list Z :=
  let l := Z.of_nat (length msg) in
  msg ++ [0x80] ++ replicate (Z.to_nat ((55 - l) mod 64)) 0 ++ be_bytes 8 (8 * l).

Fixpoint words (n : nat) (bs : list Z) : list Z :=
  match n, bs with
  | S n', b0 :: b1 :: b2 :: b3 :: bs' =>
      (((b0 * 256 + b1) * 256 + b2) * 256 + b3) :: words n' bs'
  | _, _ => []
  end.

(** The message schedule: [w] extended by [n] words. *)
Fixpoint schedule (n : nat) (w : list Z) : list Z :=
  match n with
  | O => w
  | S n' =>
      let g i := nth (length w - i) w 0 in
      schedule n'
        (w ++ [add32 (add32 (sigma1 (g 2%nat)) (g 7%nat))
                     (add32 (sigma0 (g 15%nat)) (g 16%nat))])
  end.

Definition round (s : list Z) (kw : Z * Z) : list Z :=
  match s with
  | [a; b; c; d; e; f; g; h] =>
      let t1 := add32 (add32 (add32 h (Sigma1 e)) (add32 (Ch e f g) kw.1)) kw.2 in
      let t2 := add32 (Sigma0 a) (Maj a b c) in
      [add32 t1 t2; a; b; c; add32 d t1; e; f; g]
  | _ => s
  end.

Definition compress (h : list Z) (block : list Z) : list Z :=
  let w := schedule 48 (words 16 block) in
  zip_with add32 h (foldl round h (zip K w)).

Fixpoint blocks (n : nat) (h : list Z) (bs : list Z) : list Z :=
  match n with
  | O => h
  | S n' => blocks n' (compress h (take 64 bs)) (drop 64 bs)
  end.

Definition digest (msg : list Z) : list Z :=
  let p := pad msg in
  mjoin (be_bytes 4 <$> blocks (length p / 64) H0 p).

(** [hashlib.sha256(s.encode('utf-8')).hexdigest()] *)
Definition hexdigest (s : string) : string :=
  hex_of_bytes (digest (bytes_of_string s)).

End Sha256.

(** ** Python values *)

(** What [resp.json()] returns. JSON numbers with a fraction or an exponent
    (Python floats) are left out of the model. *)
Inductive json :=
| JNull
| JBool (b : bool)
| JInt (n : Z)
| JStr (s : string)
| JList (l : list json)
| JDict (d : gmap string json).

(** [bool(v)], the test of [if v] and [not v]. *)
Definition truthy (v : json) : bool :=
  match v with
  | JNull => false
  | JBool b => b
  | JInt n => negb (n =? 0)
  | JStr s => negb (bool_decide (s = ""))
  | JList l => negb (bool_decide (l = []))
  | JDict d => negb (bool_decide (dom d = ∅))
  end.

(** The values a query parameter takes: [None], [bool], [int] and [str]. *)
Inductive scalar :=
| SNone
| SBool (b : bool)
| SInt (n : Z)
| SStr (s : string).

(** [f"{v}"] *)
Definition format (v : scalar) : string :=
  match v with
  | SNone => "None"
  | SBool true => "True"
  | SBool false => "False"
  | SInt n => str_of_int n
  | SStr s => s
  end.

(** [''.join(l)] *)
Fixpoint join (l : list string) : string :=
  match l with
  | [] => ""
  | s :: l' => s +:+ join l'
  end.

(** [s < t] on [str]: lexicographic on the bytes. *)
Definition str_ltb (s t : string) : bool :=
  match String.compare s t with Lt => true | _ => false end.

Definition scalar_num (v : scalar) : option Z :=
  match v with
  | SBool b => Some (Z.b2z b)
  | SInt n => Some n
  | _ => None
  end.

(** [a == b]: [bool] is a subclass of [int], so [True == 1]. *)
Definition scalar_eqb (a b : scalar) : bool :=
  match a, b with
  | SNone, SNone => true
  | SStr s, SStr t => bool_decide (s = t)
  | _, _ =>
      match scalar_num a, scalar_num b with
      | Some x, Some y => x =? y
      | _, _ => false
      end
  end.

(** [a < b]: numbers with numbers, strings with strings, [TypeError] otherwise. *)
Definition scalar_lt (a b : scalar) : result bool :=
  match a, b with
  | SStr s, SStr t => Return (str_ltb s t)
  | _, _ =>
      match scalar_num a, scalar_num b with
      | Some x, Some y => Return (x <? y)
      | _, _ => Raise TypeError
      end
  end.

(** [a < b] on the 2-tuples of [dict.items()]: the first components that
    differ decide. *)
Definition item_lt (a b : string * scalar) : result bool :=
  if bool_decide (a.1 = b.1) then
    if scalar_eqb a.2 b.2 then Return false else scalar_lt a.2 b.2
  else Return (str_ltb a.1 b.1).

(** [sorted(l)] with [lt] for [<]: a stable sort. CPython's list sort may ask
    for other comparisons than this insertion sort does; when none of them
    raises, every stable sort returns the same list. *)
Fixpoint insert_sorted {A} (lt : A → A → result bool) (x : A) (l : list A)
    : result (list A) :=
  match l with
  | [] => Return [x]
  | y :: l' =>
      let* b := lt y x in
      if b : bool then
        let* r := insert_sorted lt x l' in
        Return (y :: r)
      else Return (x :: l)
  end.

Fixpoint sorted {A} (lt : A → A → result bool) (l : list A) : result (list A) :=
  match l with
  | [] => Return []
  | x :: l' =>
      let* s := sorted lt l' in
      insert_sorted lt x s
  end.

(** ** The CPython library functions the program calls and this file does
    not write out. [None] stands for the [ValueError] the function raises. *)
Class PyLib := {
  (** What [json.loads] returns. *)
  pyobj : Type;
  (** [json.loads(s)] *)
  json_loads : string → option pyobj;
  (** [json.dumps(o, separators=(',', ':'))] *)
  json_dumps_compact : pyobj → string;
  json_loads_empty : json_loads "" = None;
  (** [int(s)] for a [str] [s] *)
  int_of_str : string → option Z;
  (** [s.upper()] *)
  str_upper : string → string;
  str_upper_empty : str_upper "" = "";
  (** [int(datetime.fromisoformat(s).timestamp() * 1000)] *)
  fromisoformat_ms : string → option Z;
}.

(** ** The world outside the process *)

(** One GET of the trade history: the headers and the query parameters. *)
Record request := {
  header_api_key : string;
  header_timestamp : string;
  header_nonce : string;
  header_sign : string;
  param_startTime : Z;
  param_skip : Z;
  param_limit : Z;
}.

(** What comes back for one request. *)
Inductive response :=
| GetRaises (value_error : bool)
    (** [session.get] raises: a [requests] exception that is also a
        [ValueError] (such as [InvalidHeader]), or one that is not (such as
        [ConnectionError]) *)
| BadStatus
    (** [raise_for_status] raises [HTTPError] *)
| NotJson
    (** [resp.json()] raises a [ValueError] *)
| Payload (response_json : json)
    (** [resp.json()] returns *).

Record world := {
  (** [int(time.time() * 1000)] when the [n]-th request is built *)
  clock_ms : nat → Z;
  (** the bytes the system's random generator hands out, in order *)
  urandom : nat → ascii;
  (** the answer to the [n]-th request *)
  server : nat → request → response;
  (** [datetime.now().strftime('%Y%m%d_%H%M%S')] when the report is named *)
  now_stamp : string;
}.

(** One line of the report, keyed by [FIELDNAMES]. *)
Record row := {
  Date : string;
  Time : string;
  Symbol : json;
  BuySell : string;
  Quantity : json;
  Price : json;
  Spread : string;
  Expiration : string;
  Strike : string;
  CallPut : string;
  Commission : json;
  Fees : string;
}.

(** The local files, as [json.load] reads them and at the types the program
    gives their entries: [credentials.json] holds strings,
    [last_export_state.json] holds integers. [None] is a file that does not
    exist. A report is kept as the rows [csv.DictWriter] was given. *)
Record disk := {
  CREDENTIALS_FILE : option (gmap string string);
  STATE_FILE : option (gmap string Z);
  csv_files : gmap string (list row);
}.

(** ** Signer

    A [dict] of query parameters is the list of its items in insertion
    order; no key repeats in it ([is_dict] below). *)

Record BitunixClient := {
  api_key : string;
  api_secret : string;
}.

Section Program.
Context `{PyLib}.

Definition sign_request (self : BitunixClient) (nonce timestamp : string)
    (query_params : option (list (string * scalar))) (body : option string)
    : result string :=
  let* query_string :=
    match query_params with
    | Some ((_ :: _) as items) =>
        let* s := sorted item_lt items in
        Return (join ((λ kv, kv.1 +:+ format kv.2) <$> s))
    | _ => Return ""
    end in
  let* body :=
    match body with
    | Some ((String _ _) as b) =>
        match json_loads b with
        | Some o => Return (json_dumps_compact o)
        | None => Raise ValueError
        end
    | _ => Return ""
    end in
  let message := nonce +:+ timestamp +:+ api_key self +:+ query_string +:+ body in
  let digest := Sha256.hexdigest message in
  let sign_input := digest +:+ api_secret self in
  let sign := Sha256.hexdigest sign_input in
  Return sign.

(** ** Protocol client *)

(** [int(v)] *)
Definition py_int (v : json) : result Z :=
  match v with
  | JInt n => Return n
  | JBool b => Return (Z.b2z b)
  | JStr s =>
      match int_of_str s with
      | Some n => Return n
      | None => Raise ValueError
      end
  | _ => Raise TypeError
  end.

(** [int(tr.get('ctime', 0))]; only a [dict] has [get]. *)
Definition ctime_of (tr : json) : result Z :=
  match tr with
  | JDict d => py_int (default (JInt 0) (d !! "ctime"))
  | _ => Raise AttributeError
  end.

(** The [for tr in page] loop. [trades.append] updates the list in place,
    so what was appended before an exception stays appended. *)
Fixpoint scan_page (start_time : Z) (page : list json) (trades : list json)
    : list json * option exn :=
  match page with
  | [] => (trades, None)
  | tr :: page' =>
      match ctime_of tr with
      | Return ctime =>
          scan_page start_time page'
            (if ctime >? start_time then trades ++ [tr] else trades)
      | Raise e => (trades, Some e)
      end
  end.

(** [secrets.token_hex(n)], reading the generator from position [pos]. *)
Definition token_hex (w : world) (pos n : nat) : string :=
  hex_of_bytes ((λ i, byte_of_ascii (urandom w i)) <$> seq pos n).

Definition limit : Z := 100.

(** How one pass through the body of [while True] ends. *)
Inductive step :=
| Continue (skip : Z) (trades : list json)
| Break (trades : list json)
| Propagate (e : exn).

(** The head of a pass, before the [try]: the timestamp, the nonce, the
    query parameters, their signature and the headers of request [n]. *)
Definition make_request (self : BitunixClient) (w : world) (start_time : Z)
    (n : nat) (skip : Z) : result request :=
  let now_ms := str_of_int (clock_ms w n) in
  let nonce := token_hex w (8 * n) 8 in
  let params :=
    [("startTime", SInt start_time); ("skip", SInt skip); ("limit", SInt limit)] in
  let* signature := sign_request self nonce now_ms (Some params) None in
  Return {| header_api_key := api_key self;
            header_timestamp := now_ms;
            header_nonce := nonce;
            header_sign := signature;
            param_startTime := start_time;
            param_skip := skip;
            param_limit := limit |}.

(** The [try] block and its handlers, for the answer to the [n]-th request.
    Every exception raised inside the block is an [Exception], so a handler
    runs and breaks; the [ValueError] handler reads [resp], which is unbound
    when [session.get] itself raised on the first pass. *)
Definition handle_response (start_time : Z) (n : nat) (skip : Z)
    (trades : list json) (r : response) : step :=
  match r with
  | GetRaises true => if bool_decide (n = 0%nat) then Propagate UnboundLocalError else Break trades
  | GetRaises false => Break trades
  | BadStatus => Break trades
  | NotJson => Break trades
  | Payload (JDict response_json) =>
      if bool_decide (is_Some (response_json !! "error")) then Break trades
      else
        match default (JDict ∅) (response_json !! "data") with
        | JDict data =>
            let page := default (JList []) (data !! "tradeList") in
            if negb (truthy page) then Break trades
            else
              match page with
              | JList page =>
                  match scan_page start_time page trades with
                  | (trades, None) =>
                      let skip := skip + Z.of_nat (length page) in
                      if Z.of_nat (length page) <? limit then Break trades
                      else Continue skip trades
                  | (trades, Some _) => Break trades
                  end
              | _ => Break trades
              end
        | _ => Break trades
        end
  | Payload _ => Break trades
  end.

(** [while True], for at most [fuel] passes; [None] when the loop is still
    running after them. The requests sent are listed, latest first. *)
Fixpoint fetch_loop (fuel : nat) (self : BitunixClient) (w : world)
    (start_time : Z) (n : nat) (skip : Z) (trades : list json)
    (sent : list request) : list request * option (result (list json)) :=
  match fuel with
  | O => (sent, None)
  | S fuel' =>
      match make_request self w start_time n skip with
      | Raise e => (sent, Some (Raise e))
      | Return rq =>
          match handle_response start_time n skip trades (server w n rq) with
          | Continue skip trades =>
              fetch_loop fuel' self w start_time (S n) skip trades (rq :: sent)
          | Break trades => (rq :: sent, Some (Return trades))
          | Propagate e => (rq :: sent, Some (Raise e))
          end
      end
  end.

(** [fetch_trades(start_time)] with the requests it sent, and alone. *)
Definition fetch_trades_sent (fuel : nat) (self : BitunixClient) (w : world)
    (start_time : Z) : list request * option (result (list json)) :=
  fetch_loop fuel self w start_time 0 0 [] [].

Definition fetch_trades (fuel : nat) (self : BitunixClient) (w : world)
    (start_time : Z) : option (result (list json)) :=
  (fetch_trades_sent fuel self w start_time).2.

(** [uuid.uuid4().hex]: 16 random bytes with the version and variant bits
    set. No caller: [fetch_trades] draws its nonce from [secrets]. *)
Definition _generate_nonce (w : world) (pos : nat) : string :=
  let bs := (λ i, byte_of_ascii (urandom w i)) <$> seq pos 16 in
  hex_of_bytes
    (alter (λ b, Z.lor (Z.land b 0x0f) 0x40) 6%nat
       (alter (λ b, Z.lor (Z.land b 0x3f) 0x80) 8%nat bs)).

(** [BitunixClient(api_key, api_secret)] *)
Definition new_client (key secret : string) : result BitunixClient :=
  if bool_decide (key = "") || bool_decide (secret = "") then Raise ValueError
  else Return {| api_key := key; api_secret := secret |}.

(** ** Credentials *)

(** [not v] for what [cfg.get] returns: [None] or a [str]. *)
Definition falsy (v : option string) : bool :=
  match v with
  | None => true
  | Some s => bool_decide (s = "")
  end.

Definition load_credentials (fs : disk) : result (string * string) :=
  match CREDENTIALS_FILE fs with
  | None => Raise FileNotFoundError
  | Some cfg =>
      let key := cfg !! "api_key" in
      let secret_key := cfg !! "secret_key" in
      if falsy key || falsy secret_key then Raise KeyError
      else Return (default "" key, default "" secret_key)
  end.

(** ** Checkpoint store *)

(** [s.replace('Z', '+00:00')] *)
Fixpoint replace_Z (s : string) : string :=
  match s with
  | EmptyString => EmptyString
  | String c s' =>
      if bool_decide (c = "Z"%char) then "+00:00" +:+ replace_Z s'
      else String c (replace_Z s')
  end.

Definition load_state (fs : disk) : result Z :=
  match STATE_FILE fs with
  | Some data => Return (default 0 (data !! "last_time"))
  | None =>
      match CREDENTIALS_FILE fs with
      | Some cfg =>
          let start_time := cfg !! "start_time" in
          if falsy start_time then Return 0
          else
            match fromisoformat_ms (replace_Z (default "" start_time)) with
            | Some start_time_ms => Return start_time_ms
            | None => Raise ValueError
            end
      | None => Return 0
      end
  end.

Definition save_state (last_time : Z) (fs : disk) : disk :=
  {| CREDENTIALS_FILE := CREDENTIALS_FILE fs;
     STATE_FILE := Some {[ "last_time" := last_time ]};
     csv_files := csv_files fs |}.

(** ** Normalizer *)

(** Days since 1970-01-01 to (year, month, day) in the proleptic Gregorian
    calendar. *)
Definition civil_from_days (days : Z) : Z * Z * Z :=
  let z := days + 719468 in
  let era := z / 146097 in
  let doe := z - era * 146097 in
  let yoe := (doe - doe / 1460 + doe / 36524 - doe / 146096) / 365 in
  let doy := doe - (365 * yoe + yoe / 4 - yoe / 100) in
  let mp := (5 * doy + 2) / 153 in
  let d := doy - (153 * mp + 2) / 5 + 1 in
  let m := if mp <? 10 then mp + 3 else mp - 9 in
  (if m <=? 2 then yoe + era * 400 + 1 else yoe + era * 400, m, d).

Record datetime := {
  year : Z; month : Z; day : Z;
  hour : Z; minute : Z; second : Z;
}.

(** [datetime.fromtimestamp(ctime / 1000, tz=timezone.utc)], to the second.
    Years outside 1..9999 raise ([ValueError]; [OverflowError] further out). *)
Definition fromtimestamp_utc (ctime : Z) : result datetime :=
  let secs := ctime / 1000 in
  let '(y, m, d) := civil_from_days (secs / 86400) in
  let rem := secs mod 86400 in
  if (1 <=? y) && (y <=? 9999) then
    Return {| year := y; month := m; day := d;
              hour := rem / 3600; minute := rem mod 3600 / 60;
              second := rem mod 60 |}
  else Raise ValueError.

(** [%H], [%M], [%S]: two digits. *)
Definition two_digits (n : Z) : string :=
  if n <? 10 then "0" +:+ str_of_int n else str_of_int n.

(** [tr.get(key, '')] *)
Definition get_or_blank (tr : gmap string json) (key : string) : json :=
  default (JStr "") (tr !! key).

(** The body of the [for] loop of [transform_trades]. *)
Definition transform_row (tr : json) : result row :=
  let* ctime := ctime_of tr in
  let* dt := fromtimestamp_utc ctime in
  let date_str :=
    str_of_int (month dt) +:+ "/" +:+ str_of_int (day dt) +:+ "/"
      +:+ str_of_int (year dt mod 100) in
  let time_str :=
    two_digits (hour dt) +:+ ":" +:+ two_digits (minute dt) +:+ ":"
      +:+ two_digits (second dt) in
  match tr with
  | JDict tr =>
      let* side :=
        match get_or_blank tr "side" with
        | JStr side => Return (str_upper side)
        | _ => Raise AttributeError
        end in
      Return {| Date := date_str;
                Time := time_str;
                Symbol := get_or_blank tr "symbol";
                BuySell := side;
                Quantity := get_or_blank tr "qty";
                Price := get_or_blank tr "price";
                Spread := "Crypto";
                Expiration := "";
                Strike := "";
                CallPut := "";
                Commission := get_or_blank tr "fee";
                Fees := "" |}
  | _ => Raise AttributeError
  end.

(** [sorted(trades, key=...)] computes every key first, then sorts on the
    keys alone; integers compare without raising. *)
Definition sorted_by_ctime (trades : list json) : result (list (Z * json)) :=
  let* keyed := mapM (λ x, let* k := ctime_of x in Return (k, x)) trades in
  sorted (λ a b, Return (a.1 <? b.1)) keyed.

Definition transform_trades (trades : list json) : result (list row) :=
  let* ordered := sorted_by_ctime trades in
  mapM (λ kx, transform_row kx.2) ordered.

(** ** Orchestrator *)

(** [int(t['ctime'])] *)
Definition ctime_item (t : json) : result Z :=
  match t with
  | JDict d =>
      match d !! "ctime" with
      | Some v => py_int v
      | None => Raise KeyError
      end
  | _ => Raise TypeError
  end.

(** [max(...)] over the values of a generator. *)
Definition py_max (l : list Z) : result Z :=
  match l with
  | [] => Raise ValueError
  | x :: l' => Return (foldl Z.max x l')
  end.

(** [open(name, 'w')] and the [DictWriter] calls. *)
Definition write_csv (name : string) (rows : list row) (fs : disk) : disk :=
  {| CREDENTIALS_FILE := CREDENTIALS_FILE fs;
     STATE_FILE := STATE_FILE fs;
     csv_files := <[name := rows]> (csv_files fs) |}.

(** How [main] ends: the early [return], the last line of the [try] block,
    or the [except Exception] handler. *)
Inductive outcome :=
| NoNewTrades
| Exported (count : nat) (output_filename : string)
| Failed (e : exn).

(** [main], with [output] for [args.output]. [None] when [fetch_trades] is
    still running after [fuel] requests. *)
Definition main (fuel : nat) (output : option string) (w : world) (fs : disk)
    : option (disk * outcome) :=
  match load_credentials fs with
  | Raise e => Some (fs, Failed e)
  | Return (key, secret_key) =>
  match new_client key secret_key with
  | Raise e => Some (fs, Failed e)
  | Return client =>
  match load_state fs with
  | Raise e => Some (fs, Failed e)
  | Return last_time =>
  match fetch_trades fuel client w last_time with
  | None => None
  | Some (Raise e) => Some (fs, Failed e)
  | Some (Return []) => Some (fs, NoNewTrades)
  | Some (Return new_trades) =>
  match transform_trades new_trades with
  | Raise e => Some (fs, Failed e)
  | Return rows =>
      let output_filename :=
        if falsy output then "new_trades_" +:+ now_stamp w +:+ ".csv"
        else default "" output in
      let fs := write_csv output_filename rows fs in
      match bind (mapM ctime_item new_trades) py_max with
      | Raise e => Some (fs, Failed e)
      | Return latest_time =>
          Some (save_state latest_time fs,
                Exported (length new_trades) output_filename)
      end
  end end end end end.

End Program.

(** ** CPython on plain ASCII data

    An instance of [PyLib] to run the model on test data. It follows CPython
    on a fragment of each function's domain and answers [None] outside of it:
    decimal numerals with an optional sign for [int]; ASCII letters for
    [upper]; [YYYY-MM-DDTHH:MM:SS+00:00] for [fromisoformat]; JSON texts
    without floats, without escapes in strings and without bytes above 127
    for [json.loads]. *)
Module Plain.

Definition is_digit (c : ascii) : bool :=
  (48 <=? byte_of_ascii c) && (byte_of_ascii c <=? 57).

(** The value of a run of digits, [acc] holding the digits read so far. *)
Fixpoint digits (acc : Z) (s : string) : option Z :=
  match s with
  | EmptyString => Some acc
  | String c s' =>
      if is_digit c then digits (10 * acc + (byte_of_ascii c - 48)) s' else None
  end.

Definition numeral (s : string) : option Z :=
  match s with
  | EmptyString => None
  | _ => digits 0 s
  end.

Definition int_of_str (s : string) : option Z :=
  match s with
  | String "-" s' => Z.opp <$> numeral s'
  | String "+" s' => numeral s'
  | _ => numeral s
  end.

Definition upper_char (c : ascii) : ascii :=
  let b := byte_of_ascii c in
  if (97 <=? b) && (b <=? 122) then ascii_of_byte (b - 32) else c.

Fixpoint str_upper (s : string) : string :=
  match s with
  | EmptyString => EmptyString
  | String c s' => String (upper_char c) (str_upper s')
  end.

Definition days_from_civil (y m d : Z) : Z :=
  let y := if m <=? 2 then y - 1 else y in
  let era := y / 400 in
  let yoe := y - era * 400 in
  let doy := (153 * (if 2 <? m then m - 3 else m + 9) + 2) / 5 + d - 1 in
  let doe := yoe * 365 + yoe / 4 - yoe / 100 + doy in
  era * 146097 + doe - 719468.

Definition days_in_month (y m : Z) : Z :=
  if m =? 2 then
    if ((y mod 4 =? 0) && negb (y mod 100 =? 0)) || (y mod 400 =? 0) then 29 else 28
  else if (m =? 4) || (m =? 6) || (m =? 9) || (m =? 11) then 30
  else 31.

Definition fromisoformat_ms (s : string) : option Z :=
  let field i n := numeral (String.substring i n s) in
  if bool_decide (String.length s = 25%nat)
     && bool_decide (String.substring 4 1 s = "-")
     && bool_decide (String.substring 7 1 s = "-")
     && bool_decide (String.substring 10 1 s = "T")
     && bool_decide (String.substring 13 1 s = ":")
     && bool_decide (String.substring 16 1 s = ":")
     && bool_decide (String.substring 19 6 s = "+00:00")
  then
    y ← field 0%nat 4%nat; m ← field 5%nat 2%nat; d ← field 8%nat 2%nat;
    hh ← field 11%nat 2%nat; mm ← field 14%nat 2%nat; ss ← field 17%nat 2%nat;
    if (1 <=? y) && (1 <=? m) && (m <=? 12) && (1 <=? d)
       && (d <=? days_in_month y m) && (hh <? 24) && (mm <? 60) && (ss <? 60)
    then Some (((days_from_civil y m d * 24 + hh) * 60 + mm) * 60 * 1000 + ss * 1000)
    else None
  else None.

(** What [json.loads] builds; an object keeps its keys in insertion order. *)
Inductive jtree :=
| TNull
| TBool (b : bool)
| TInt (n : Z)
| TStr (s : string)
| TArr (l : list jtree)
| TObj (l : list (string * jtree)).

Definition dquote : ascii := ascii_of_byte 34.

Definition is_ws (c : ascii) : bool :=
  let b := byte_of_ascii c in
  (b =? 32) || (b =? 9) || (b =? 10) || (b =? 13).

Fixpoint skip_ws (s : string) : string :=
  match s with
  | String c s' => if is_ws c then skip_ws s' else s
  | EmptyString => s
  end.

(** The characters up to the closing quote, and what follows it. *)
Fixpoint string_body (s : string) : option (string * string) :=
  match s with
  | EmptyString => None
  | String c s' =>
      let b := byte_of_ascii c in
      if b =? 34 then Some (EmptyString, s')
      else if (b <? 32) || (b =? 92) || (127 <? b) then None
      else '(body, rest) ← string_body s'; Some (String c body, rest)
  end.

(** The longest run of digits at the head of [s], and what follows it. *)
Fixpoint span_digits (s : string) : string * string :=
  match s with
  | String c s' =>
      if is_digit c then
        let '(ds, rest) := span_digits s' in (String c ds, rest)
      else (EmptyString, s)
  | EmptyString => (EmptyString, EmptyString)
  end.

(** An optional minus sign, then 0 or a digit run that does not start with 0;
    not followed by a fraction or an exponent. *)
Definition number (s : string) : option (Z * string) :=
  let '(neg, s) :=
    match s with
    | String "-" s' => (true, s')
    | _ => (false, s)
    end in
  let '(ds, rest) :=
    match s with
    | String "0" s' => ("0", s')
    | _ => span_digits s
    end in
  match rest with
  | String "." _ | String "e" _ | String "E" _ => None
  | _ => n ← numeral ds; Some (if neg : bool then - n else n, rest)
  end.

(** [d[k] = v] *)
Fixpoint dict_set {V} (k : string) (v : V) (d : list (string * V))
    : list (string * V) :=
  match d with
  | [] => [(k, v)]
  | (k', v') :: d' =>
      if bool_decide (k = k') then (k, v) :: d' else (k', v') :: dict_set k v d'
  end.

Definition strip_prefix (p s : string) : option string :=
  if String.prefix p s
  then Some (String.substring (String.length p) (String.length s - String.length p) s)
  else None.

Fixpoint value (fuel : nat) (s : string) : option (jtree * string) :=
  match fuel with
  | O => None
  | S fuel =>
      match skip_ws s with
      | String "[" s' =>
          match skip_ws s' with
          | String "]" rest => Some (TArr [], rest)
          | _ => '(l, rest) ← elements fuel s' []; Some (TArr l, rest)
          end
      | String "{" s' =>
          match skip_ws s' with
          | String "}" rest => Some (TObj [], rest)
          | _ => '(l, rest) ← members fuel s' []; Some (TObj l, rest)
          end
      | String c s' as s0 =>
          if byte_of_ascii c =? 34 then
            '(body, rest) ← string_body s'; Some (TStr body, rest)
          else
            match strip_prefix "null" s0, strip_prefix "true" s0,
                  strip_prefix "false" s0 with
            | Some rest, _, _ => Some (TNull, rest)
            | _, Some rest, _ => Some (TBool true, rest)
            | _, _, Some rest => Some (TBool false, rest)
            | _, _, _ => '(n, rest) ← number s0; Some (TInt n, rest)
            end
      | EmptyString => None
      end
  end
with elements (fuel : nat) (s : string) (acc : list jtree)
    : option (list jtree * string) :=
  match fuel with
  | O => None
  | S fuel =>
      '(v, rest) ← value fuel s;
      match skip_ws rest with
      | String "," rest' => elements fuel rest' (acc ++ [v])
      | String "]" rest' => Some (acc ++ [v], rest')
      | _ => None
      end
  end
with members (fuel : nat) (s : string) (acc : list (string * jtree))
    : option (list (string * jtree) * string) :=
  match fuel with
  | O => None
  | S fuel =>
      match skip_ws s with
      | String c s' =>
          if byte_of_ascii c =? 34 then
            '(k, rest) ← string_body s';
            match skip_ws rest with
            | String ":" rest' =>
                '(v, rest'') ← value fuel rest';
                match skip_ws rest'' with
                | String "," rest3 => members fuel rest3 (dict_set k v acc)
                | String "}" rest3 => Some (dict_set k v acc, rest3)
                | _ => None
                end
            | _ => None
            end
          else None
      | EmptyString => None
      end
  end.

Definition json_loads (s : string) : option jtree :=
  '(v, rest) ← value (S (String.length s)) s;
  match skip_ws rest with
  | EmptyString => Some v
  | _ => None
  end.

Definition quoted (s : string) : string :=
  String dquote (s +:+ String dquote EmptyString).

Fixpoint json_dumps_compact (t : jtree) : string :=
  match t with
  | TNull => "null"
  | TBool true => "true"
  | TBool false => "false"
  | TInt n => str_of_int n
  | TStr s => quoted s
  | TArr l =>
      "[" +:+ (fix items (l : list jtree) : string :=
                 match l with
                 | [] => ""
                 | [x] => json_dumps_compact x
                 | x :: l' => json_dumps_compact x +:+ "," +:+ items l'
                 end) l +:+ "]"
  | TObj l =>
      "{" +:+ (fix items (l : list (string * jtree)) : string :=
                 match l with
                 | [] => ""
                 | [(k, x)] => quoted k +:+ ":" +:+ json_dumps_compact x
                 | (k, x) :: l' =>
                     quoted k +:+ ":" +:+ json_dumps_compact x +:+ "," +:+ items l'
                 end) l +:+ "}"
  end.

End Plain.

#[export] Instance plain : PyLib := {|
  pyobj := Plain.jtree;
  json_loads := Plain.json_loads;
  json_dumps_compact := Plain.json_dumps_compact;
  json_loads_empty := eq_refl;
  int_of_str := Plain.int_of_str;
  str_upper := Plain.str_upper;
  str_upper_empty := eq_refl;
  fromisoformat_ms := Plain.fromisoformat_ms;
|}.

(** ** Test data *)

Module Demo.

Definition client : BitunixClient := {| api_key := "key"; api_secret := "secret" |}.

Definition trade (ctime : json) : json :=
  JDict {[ "ctime" := ctime; "symbol" := JStr "BTCUSDT"; "side" := JStr "buy";
           "qty" := JStr "0.5"; "price" := JStr "37000"; "fee" := JStr "0.01" ]}.

Definition payload (page : list json) : response :=
  Payload (JDict {[ "code" := JInt 0;
                    "data" := JDict {[ "tradeList" := JList page ]} ]}).

(** A server that answers [first], then [second], then empty pages. *)
Definition world_of (first second : response) : world :=
  {| clock_ms := λ n, 1700000000000 + Z.of_nat n;
     urandom := λ i, ascii_of_byte (17 * Z.of_nat i);
     server := λ n _,
       match n with
       | 0%nat => first
       | 1%nat => second
       | _ => payload []
       end;
     now_stamp := "20231114_221320" |}.

(** A full page of trades at time 2000, then three trades at times 1000,
    3000 (sent as a string) and 2500. *)
Definition two_pages : world :=
  world_of (payload (replicate 100 (trade (JInt 2000))))
           (payload [trade (JInt 1000); trade (JStr "3000"); trade (JInt 2500)]).

(** Two trades, neither newer than 5000. *)
Definition old_trades : world :=
  world_of (payload [trade (JInt 4000); trade (JInt 5000)]) (payload []).


(** A client whose first request [requests] refuses to send. *)
Definition refused : world := world_of (GetRaises true) (payload []).

Definition credentials : gmap string string :=
  {[ "api_key" := "key"; "secret_key" := "secret" ]}.

Definition disk_at (last_time : Z) : disk :=
  {| CREDENTIALS_FILE := Some credentials;
     STATE_FILE := Some {[ "last_time" := last_time ]};
     csv_files := ∅ |}.

(** A JSON body with insignificant white space and a repeated key. *)
Definition body : string :=
  "{ " +:+ Plain.quoted "b" +:+ " : [1, 2 , -0, true, null] , "
    +:+ Plain.quoted "a" +:+ ": {}, " +:+ Plain.quoted "b" +:+ ":  7 }".

Definition params : list (string * scalar) :=
  [("startTime", SInt 5); ("skip", SInt 0); ("limit", SInt 100)].

(** A state file without a checkpoint, beside a configuration that names
    the start of 2024. *)
Definition disk_without_checkpoint : disk :=
  {| CREDENTIALS_FILE := Some (<[ "start_time" := "2024-01-01T00:00:00Z" ]> credentials);
     STATE_FILE := Some ∅;
     csv_files := ∅ |}.

(** No state file yet. *)
Definition first_run (start_time : string) : disk :=
  {| CREDENTIALS_FILE := Some (<[ "start_time" := start_time ]> credentials);
     STATE_FILE := None;
     csv_files := ∅ |}.

(** A server that answers every request with the same full page. *)
Definition endless : world :=
  {| clock_ms := λ n, 1700000000000 + Z.of_nat n;
     urandom := λ i, ascii_of_byte (17 * Z.of_nat i);
     server := λ _ _, payload (replicate 100 (trade (JInt 2000)));
     now_stamp := "20231114_221320" |}.

(** A page whose second entry has a null creation timestamp. *)
Definition unreadable : world :=
  world_of (payload [trade (JInt 2000); trade JNull; trade (JInt 3000)])
           (payload []).

Definition trade_of (symbol : string) (ctime : Z) : json :=
  JDict {[ "ctime" := JInt ctime; "symbol" := JStr symbol ]}.

End Demo.

(** ** Vocabulary of the signer's specification *)

(** Ascending byte order on strings. *)
Definition str_lt (s t : string) : Prop := String.compare s t = Lt.
Definition str_le (s t : string) : Prop := s = t ∨ str_lt s t.

(** A list of items is a mapping, in insertion order, when no key repeats. *)
Definition is_dict {V} (items : list (string * V)) : Prop := NoDup items.*1.

Definition key_lt {V} (a b : string * V) : Prop := str_lt a.1 b.1.
Definition key_le {V} (a b : string * V) : Prop := str_le a.1 b.1.

(** One query parameter, key then value, with no separator. *)
Definition pair_text (kv : string * scalar) : string := kv.1 +:+ format kv.2.

(** [text] is the compact JSON of the optional [body]. *)
Definition canonical_body `{PyLib} (body : option string) (text : string) : Prop :=
  match body with
  | None => text = ""
  | Some b => ∃ o, json_loads b = Some o ∧ text = json_dumps_compact o
  end.

(** ** Vocabulary of the protocol client's specification *)

Section ClientSpec.
Context `{PyLib}.

(** The record's creation timestamp is strictly greater than [t]. *)
Definition newer_than (t : Z) (tr : json) : Prop :=
  ∃ ctime, ctime_of tr = Return ctime ∧ t < ctime.

(** The page of trade entries in a payload: [data.tradeList], empty when
    either key is missing. *)
Definition page_of (response_json : gmap string json) : option (list json) :=
  match default (JDict ∅) (response_json !! "data") with
  | JDict data =>
      match default (JList []) (data !! "tradeList") with
      | JList page => Some page
      | _ => None
      end
  | _ => None
  end.

(** The entries of [page] that [fetch_trades] keeps, after [trades]. *)
Definition kept (t : Z) (page trades : list json) : list json :=
  (scan_page t page trades).1.

(** [stops_on t trades r out]: [r] is one of the answers that end the
    pagination (a page shorter than the limit, an empty page, a payload with
    an error, a failure of the connection or of the HTTP exchange, a body
    that is not JSON), and [out] is what has been accumulated when it arrives
    after [trades]. *)
Inductive stops_on (t : Z) (trades : list json) : response → list json → Prop :=
| short_page d page :
    d !! "error" = None → page_of d = Some page →
    (0 < length page < 100)%nat →
    stops_on t trades (Payload (JDict d)) (kept t page trades)
| empty_page d :
    d !! "error" = None → page_of d = Some [] →
    stops_on t trades (Payload (JDict d)) trades
| remote_error d e :
    d !! "error" = Some e →
    stops_on t trades (Payload (JDict d)) trades
| connection_failure :
    stops_on t trades (GetRaises false) trades
| http_failure :
    stops_on t trades BadStatus trades
| malformed_body :
    stops_on t trades NotJson trades.

(** What one pass leaves in [trades]. *)
Definition step_trades (s : step) : list json :=
  match s with
  | Continue _ trades | Break trades => trades
  | Propagate _ => []
  end.

(** The offset and the trades [fetch_trades] holds when it starts pass [n]
    of its loop; [None] when the loop ends earlier. *)
Fixpoint pass_state (self : BitunixClient) (w : world) (t : Z) (n : nat)
    : option (Z * list json) :=
  match n with
  | O => Some (0, [])
  | S n' =>
      '(skip, trades) ← pass_state self w t n';
      match make_request self w t n' skip with
      | Return rq =>
          match handle_response t n' skip trades (server w n' rq) with
          | Continue skip trades => Some (skip, trades)
          | _ => None
          end
      | Raise _ => None
      end
  end.

End ClientSpec.

(** ** Vocabulary of the checkpoint store's specification *)

Section StoreSpec.
Context `{PyLib}.

(** The checkpoint the state file holds, if the file exists and has one. *)
Definition persisted_checkpoint (fs : disk) : option Z :=
  data ← STATE_FILE fs; data !! "last_time".

(** The start time the configuration holds, if the file exists and gives a
    non-empty one. *)
Definition configured_start_time (fs : disk) : option string :=
  cfg ← CREDENTIALS_FILE fs;
  start_time ← cfg !! "start_time";
  if bool_decide (start_time = "") then None else Some start_time.

(** The instant a start time denotes, in milliseconds since the epoch;
    [None] when it is malformed. *)
Definition instant_ms (start_time : string) : option Z :=
  fromisoformat_ms (replace_Z start_time).

(** [load] as the specification words it: the persisted checkpoint when one
    is present; else the configured start time; else 0. *)
Definition load_as_specified (fs : disk) : result Z :=
  match persisted_checkpoint fs with
  | Some t => Return t
  | None =>
      match configured_start_time fs with
      | Some start_time =>
          match instant_ms start_time with
          | Some ms => Return ms
          | None => Raise ValueError
          end
      | None => Return 0
      end
  end.

(** The same disk with another configuration file, or none. *)
Definition with_credentials (cfg : option (gmap string string)) (fs : disk) : disk :=
  {| CREDENTIALS_FILE := cfg;
     STATE_FILE := STATE_FILE fs;
     csv_files := csv_files fs |}.

End StoreSpec.

(** ** Vocabulary of the normalizer's specification *)

Section NormalizerSpec.
Context `{PyLib}.

(** 0001-01-01T00:00:00Z and 10000-01-01T00:00:00Z, in milliseconds since
    the epoch: the instants between them are those a [datetime] can hold. *)
Definition min_ms : Z := -62135596800000.
Definition max_ms : Z := 253402300800000.

(** A record the normalizer maps to a row: a [dict] whose creation
    timestamp (0 when missing) converts to an integer within the range of
    [datetime] and whose side, when present, is a string. *)
Definition exportable (tr : json) : Prop :=
  ∃ d ctime,
    tr = JDict d ∧ ctime_of tr = Return ctime ∧ min_ms ≤ ctime < max_ms
    ∧ ∀ side, d !! "side" = Some side → ∃ s, side = JStr s.

(** Ascending creation timestamps. *)
Definition ctime_le (a b : json) : Prop :=
  ∃ ca cb, ctime_of a = Return ca ∧ ctime_of b = Return cb ∧ ca ≤ cb.

(** What the row [r] of the record [tr] holds where [tr] lacks a field:
    blank, and for the creation timestamp the epoch. *)
Definition blank_where_missing (tr : json) (r : row) : Prop :=
  ∀ d, tr = JDict d →
    (d !! "symbol" = None → Symbol r = JStr "")
    ∧ (d !! "side" = None → BuySell r = "")
    ∧ (d !! "qty" = None → Quantity r = JStr "")
    ∧ (d !! "price" = None → Price r = JStr "")
    ∧ (d !! "fee" = None → Commission r = JStr "")
    ∧ (d !! "ctime" = None → Date r = "1/1/70" ∧ Time r = "00:00:00").

End NormalizerSpec.

(** ** Vocabulary of the orchestrator's specification *)

Section OrchestratorSpec.
Context `{PyLib}.

(** [latest] is the maximum creation timestamp among [trades]. *)
Definition max_ctime (trades : list json) (latest : Z) : Prop :=
  (∃ tr, tr ∈ trades ∧ ctime_of tr = Return latest)
  ∧ Forall (λ tr, ∃ ctime, ctime_of tr = Return ctime ∧ ctime ≤ latest) trades.

End OrchestratorSpec.

(** ** Vocabulary of the further properties *)

Section MoreSpec.
Context `{PyLib}.

(** The creation timestamp of [tr] can be read: [int(tr.get('ctime', 0))]
    returns. *)
Definition readable (tr : json) : Prop := ∃ ctime, ctime_of tr = Return ctime.

(** The test [ctime > start_time] of [fetch_trades], false when the
    timestamp cannot be read. *)
Definition is_newer (t : Z) (tr : json) : bool :=
  match ctime_of tr with
  | Return ctime => ctime >? t
  | Raise _ => false
  end.

(** The records of [l] that are strictly newer than [t], in the order of [l]. *)
Definition newer (t : Z) (l : list json) : list json :=
  filter (λ tr, is_newer t tr = true) l.

(** Whatever the request, the server answers pass [n] with a payload that
    has no error and carries [page]. *)
Definition serves (w : world) (n : nat) (page : list json) : Prop :=
  ∀ rq, ∃ d, server w n rq = Payload (JDict d)
             ∧ d !! "error" = None ∧ page_of d = Some page.

(** The offsets of the requests that fetch [pages] one after the other,
    starting at [skip], and of the request after them. *)
Fixpoint offsets (skip : Z) (pages : list (list json)) : list Z :=
  match pages with
  | [] => [skip]
  | page :: pages' => skip :: offsets (skip + Z.of_nat (length page)) pages'
  end.

(** The query parameters a request carries, as [fetch_trades] signs them. *)
Definition params_of (rq : request) : list (string * scalar) :=
  [("startTime", SInt (param_startTime rq)); ("skip", SInt (param_skip rq));
   ("limit", SInt (param_limit rq))].

(** What a pass for an earlier checkpoint does, a pass for a later one does
    on the records newer than the later one. *)
Definition later_step (t2 : Z) (s : step) : step :=
  match s with
  | Continue skip trades => Continue skip (newer t2 trades)
  | Break trades => Break (newer t2 trades)
  | Propagate e => Propagate e
  end.

(** The row [r] is the image of the record [d]: each column comes from the
    field of the record it is named after in the source, the constant
    columns hold their constants, and the time is written on 8 characters. *)
Definition row_of_record (d : gmap string json) (r : row) : Prop :=
  (∃ side, get_or_blank d "side" = JStr side ∧ BuySell r = str_upper side)
  ∧ Symbol r = get_or_blank d "symbol"
  ∧ Quantity r = get_or_blank d "qty"
  ∧ Price r = get_or_blank d "price"
  ∧ Commission r = get_or_blank d "fee"
  ∧ Spread r = "Crypto"
  ∧ Expiration r = "" ∧ Strike r = "" ∧ CallPut r = "" ∧ Fees r = ""
  ∧ String.length (Time r) = 8%nat.


End MoreSpec.

(* ===================================================================== *)
(** * Properties *)
(* ===================================================================== *)

(** ** Test vectors of the SHA-256 model (FIPS 180-4, appendix B) *)

Example sha256_abc :
  Sha256.hexdigest "abc"
  = "ba7816bf8f01cfea414140de5dae2223b00361a396177a9cb410ff61f20015ad".
Proof. vm_compute. reflexivity. Qed.

Example sha256_empty :
  Sha256.hexdigest ""
  = "e3b0c44298fc1c149afbf4c8996fb92427ae41e4649b934ca495991b7852b855".
Proof. vm_compute. reflexivity. Qed.

(** ** The byte order on strings *)

Lemma ascii_compare_refl (c : ascii) : Ascii.compare c c = Eq.
Proof.
  pose proof (Ascii.compare_antisym c c) as E.
  destruct (Ascii.compare c c); simpl in E; congruence.
Qed.

Lemma ascii_compare_lt_trans (a b c : ascii) :
  Ascii.compare a b = Lt → Ascii.compare b c = Lt → Ascii.compare a c = Lt.
Proof.
  unfold Ascii.compare. rewrite !N.compare_lt_iff. apply N.lt_trans.
Qed.

Lemma str_compare_refl (s : string) : String.compare s s = Eq.
Proof.
  induction s as [|c s IH]; simpl; [done|]. by rewrite ascii_compare_refl.
Qed.

Lemma str_lt_irrefl (s : string) : ¬ str_lt s s.
Proof. unfold str_lt. by rewrite str_compare_refl. Qed.

Lemma str_lt_trans (s t u : string) : str_lt s t → str_lt t u → str_lt s u.
Proof.
  unfold str_lt. revert t u.
  induction s as [|a s IH]; intros [|b t] [|c u]; simpl; try done.
  destruct (Ascii.compare a b) eqn:Eab; try done;
    destruct (Ascii.compare b c) eqn:Ebc; try done.
  - apply Ascii.compare_eq_iff in Eab, Ebc. subst.
    rewrite ascii_compare_refl. apply IH.
  - apply Ascii.compare_eq_iff in Eab. subst. by rewrite Ebc.
  - apply Ascii.compare_eq_iff in Ebc. subst. by rewrite Eab.
  - by rewrite (ascii_compare_lt_trans a b c).
Qed.

Lemma str_lt_asym (s t : string) : str_lt s t → ¬ str_lt t s.
Proof. intros H1 H2. exact (str_lt_irrefl s (str_lt_trans _ _ _ H1 H2)). Qed.

Lemma str_ltb_true (s t : string) : str_ltb s t = true ↔ str_lt s t.
Proof. unfold str_ltb, str_lt. destruct (String.compare s t); naive_solver. Qed.

(** The order is total: two keys that are not in order, and differ, are in
    the opposite order. *)
Lemma str_ltb_false (s t : string) : str_ltb s t = false → s ≠ t → str_lt t s.
Proof.
  unfold str_ltb, str_lt. intros Hlt Hne.
  rewrite (String.compare_antisym t s).
  destruct (String.compare s t) eqn:E; simpl; try done.
  by apply String.compare_eq_iff in E.
Qed.

Lemma str_le_trans (s t u : string) : str_le s t → str_le t u → str_le s u.
Proof.
  intros [->|H1] [->|H2]; unfold str_le; eauto using str_lt_trans.
Qed.

(** ** [sorted] returns the sorted permutation when no comparison raises *)

Section sorted_facts.
Context {A : Type} (lt : A → A → result bool) (le : relation A) (P : A → Prop).
Hypothesis lt_decides : ∀ a b, P a → P b →
  ∃ c : bool, lt a b = Return c ∧ if c then le a b else le b a.
Hypothesis le_transitive : ∀ a b c, le a b → le b c → le a c.

Lemma insert_sorted_spec (x : A) (l : list A) :
  P x → Forall P l → StronglySorted le l →
  ∃ r, insert_sorted lt x l = Return r ∧ r ≡ₚ x :: l ∧ StronglySorted le r.
Proof.
  intros Hx. induction l as [|y l IH]; intros HP Hs.
  - exists [x]. repeat split; [done|]. repeat constructor.
  - apply Forall_cons in HP as [Hy HP].
    apply StronglySorted_inv in Hs as [Hs Hall].
    destruct (lt_decides y x Hy Hx) as (c & Hc & Hle). simpl. rewrite Hc. simpl.
    destruct c.
    + destruct (IH HP Hs) as (r & -> & Hperm & Hr). simpl.
      exists (y :: r). repeat split.
      * rewrite Hperm. apply Permutation_swap.
      * constructor; [done|]. rewrite Hperm. by constructor.
    + exists (x :: y :: l). repeat split; [done|].
      constructor; [by constructor|].
      constructor; [done|].
      eapply Forall_impl; [exact Hall|]. intros z Hz. by eapply le_transitive.
Qed.

Lemma sorted_spec (l : list A) :
  Forall P l →
  ∃ r, sorted lt l = Return r ∧ r ≡ₚ l ∧ StronglySorted le r.
Proof.
  induction l as [|x l IH]; intros HP.
  - exists []. repeat split; [done|constructor].
  - apply Forall_cons in HP as [Hx HP].
    destruct (IH HP) as (s & Hs & Hperm & Hsorted). simpl. rewrite Hs. simpl.
    destruct (insert_sorted_spec x s Hx) as (r & Hr & Hperm' & Hr'); [|done|].
    { by rewrite Hperm. }
    exists r. repeat split; [done| |done]. by rewrite Hperm', Hperm.
Qed.
End sorted_facts.

(** ** Signer *)

Lemma scalar_eqb_refl (v : scalar) : scalar_eqb v v = true.
Proof.
  destruct v as [|b|n|s]; simpl; try done.
  - by destruct b.
  - apply Z.eqb_refl.
  - by apply bool_decide_eq_true.
Qed.

Lemma dict_items_functional {V} (l : list (string * V)) (k : string) (v v' : V) :
  is_dict l → (k, v) ∈ l → (k, v') ∈ l → v = v'.
Proof.
  unfold is_dict. induction l as [|[k0 v0] l IH]; intros Hnd.
  { by intros ?%elem_of_nil. }
  rewrite fmap_cons in Hnd. apply NoDup_cons in Hnd as [Hk Hnd].
  rewrite !elem_of_cons. intros [E1|H1] [E2|H2].
  - congruence.
  - exfalso. apply Hk. injection E1 as -> ->.
    apply list_elem_of_fmap. by exists (k0, v').
  - exfalso. apply Hk. injection E2 as -> ->.
    apply list_elem_of_fmap. by exists (k0, v).
  - by apply IH.
Qed.

(** On the items of a mapping no tuple comparison raises, and it orders the
    items by key: equal keys mean the same item. *)
Lemma item_lt_decides (items : list (string * scalar)) :
  is_dict items →
  ∀ a b, a ∈ items → b ∈ items →
  ∃ c : bool, item_lt a b = Return c ∧ if c then key_le a b else key_le b a.
Proof.
  intros Hnd a b Ha Hb. unfold item_lt, key_le.
  case_bool_decide as Hk.
  - assert (a = b) as ->.
    { destruct a as [k v], b as [k' v']. simpl in Hk. subst k'.
      f_equal. by eapply dict_items_functional. }
    rewrite scalar_eqb_refl. exists false. split; [done|]. by left.
  - destruct (str_ltb a.1 b.1) eqn:E.
    + exists true. split; [done|]. right. by apply str_ltb_true.
    + exists false. split; [done|]. right. by apply str_ltb_false.
Qed.

Lemma key_le_transitive {V} (a b c : string * V) :
  key_le a b → key_le b c → key_le a c.
Proof. apply str_le_trans. Qed.

(** In a mapping, ascending by key is strictly ascending. *)
Lemma key_le_sorted_strict {V} (l : list (string * V)) :
  is_dict l → StronglySorted key_le l → StronglySorted key_lt l.
Proof.
  unfold is_dict. induction 2 as [|x l Hs IH Hall]; [constructor|].
  rewrite fmap_cons in H. apply NoDup_cons in H as [Hx Hnd].
  constructor; [by apply IH|].
  rewrite Forall_forall in Hall |- *. intros y Hy.
  destruct (Hall y Hy) as [Heq|Hlt]; [|done].
  exfalso. apply Hx. rewrite Heq. apply list_elem_of_fmap. by exists y.
Qed.

Lemma sorted_items (items : list (string * scalar)) :
  is_dict items →
  ∃ s, sorted item_lt items = Return s ∧ s ≡ₚ items ∧ StronglySorted key_lt s.
Proof.
  intros Hd.
  destruct (sorted_spec item_lt key_le (λ a, a ∈ items)
              (item_lt_decides items Hd) (@key_le_transitive scalar) items)
    as (s & Hs & Hperm & Hsorted).
  { by apply Forall_forall. }
  exists s. repeat split; [done..|].
  apply key_le_sorted_strict; [|done].
  unfold is_dict in *. by rewrite Hperm.
Qed.

(** Two listings of the same items in ascending key order are the same list. *)
Lemma key_sorted_unique {V} (s1 s2 : list (string * V)) :
  StronglySorted key_lt s1 → StronglySorted key_lt s2 → s1 ≡ₚ s2 → s1 = s2.
Proof.
  apply StronglySorted_unique_strong.
  intros a b _ _ Hab Hba. by destruct (str_lt_asym _ _ Hab).
Qed.

Section signer_facts.
Context `{PyLib}.

(** [sorted] lists the items of a mapping in ascending key order. *)
Lemma sorted_items_canonical (items canon : list (string * scalar)) :
  is_dict items → canon ≡ₚ items → StronglySorted key_lt canon →
  sorted item_lt items = Return canon.
Proof.
  intros Hd Hperm Hsorted.
  destruct (sorted_items items Hd) as (s & Hs & Hperm' & Hsorted').
  rewrite Hs. f_equal.
  apply key_sorted_unique; [done..|]. by rewrite Hperm, Hperm'.
Qed.

Lemma body_canonical (body : option string) (text : string) :
  canonical_body body text →
  match body with
  | Some ((String _ _) as b) =>
      match json_loads b with
      | Some o => Return (json_dumps_compact o)
      | None => Raise ValueError
      end
  | _ => Return ""
  end = Return text.
Proof.
  destruct body as [[|c b]|]; simpl.
  - intros (o & Ho & _). by rewrite json_loads_empty in Ho.
  - by intros (o & -> & ->).
  - by intros ->.
Qed.

(** C1. For a query-parameter mapping and an optional body that is valid
    JSON when present, [sign_request] returns the hex SHA-256 of (the hex
    SHA-256 of nonce + timestamp + key id + the parameters in ascending key
    order, each as key then value, + the compact JSON of the body) followed
    by the secret key. *)
Theorem sign_request_double_sha256
    (self : BitunixClient) (nonce timestamp : string)
    (query_params : option (list (string * scalar))) (body : option string)
    (canon : list (string * scalar)) (compact : string) :
  is_dict (default [] query_params) →
  canon ≡ₚ default [] query_params →
  StronglySorted key_lt canon →
  canonical_body body compact →
  sign_request self nonce timestamp query_params body
  = Return (Sha256.hexdigest
              (Sha256.hexdigest
                 (nonce +:+ timestamp +:+ api_key self
                    +:+ join (pair_text <$> canon) +:+ compact)
               +:+ api_secret self)).
Proof.
  intros Hd Hperm Hsorted Hbody. unfold sign_request.
  rewrite (body_canonical _ _ Hbody).
  destruct query_params as [[|i items]|]; simpl in Hd, Hperm; cbv beta iota.
  - apply Permutation_nil_r in Hperm. by subst.
  - by rewrite (sorted_items_canonical _ _ Hd Hperm Hsorted).
  - apply Permutation_nil_r in Hperm. by subst.
Qed.

(** C5. Two query-parameter mappings that hold the same key-value pairs,
    inserted in different orders, get the same signature. *)
Theorem sign_request_insertion_order
    (self : BitunixClient) (nonce timestamp : string)
    (p q : list (string * scalar)) (body : option string) :
  is_dict p → p ≡ₚ q →
  sign_request self nonce timestamp (Some p) body
  = sign_request self nonce timestamp (Some q) body.
Proof.
  intros Hp Hpq.
  assert (is_dict q) as Hq by (unfold is_dict in *; by rewrite <- Hpq).
  destruct (sorted_items p Hp) as (s & Hs & Hperm & Hsorted).
  assert (sorted item_lt q = Return s) as Hs'.
  { apply sorted_items_canonical; [done| |done]. by rewrite Hperm. }
  unfold sign_request.
  destruct p as [|i p], q as [|j q]; try done.
  - by apply Permutation_nil_cons in Hpq.
  - symmetry in Hpq. by apply Permutation_nil_cons in Hpq.
  - cbv beta iota. by rewrite Hs, Hs'.
Qed.

End signer_facts.

(** ** Protocol client *)

Lemma str_length_append (s t : string) :
  String.length (s +:+ t) = (String.length s + String.length t)%nat.
Proof. induction s as [|c s IH]; simpl; [done|]. by rewrite IH. Qed.

Lemma hex_of_bytes_length (bs : list Z) :
  String.length (hex_of_bytes bs) = (2 * length bs)%nat.
Proof.
  induction bs as [|b bs IH]; [done|].
  cbn [hex_of_bytes length]. rewrite str_length_append, IH. simpl. lia.
Qed.

(** [secrets.token_hex(n)] is [2 * n] characters long. *)
Lemma token_hex_length (w : world) (pos n : nat) :
  String.length (token_hex w pos n) = (2 * n)%nat.
Proof.
  unfold token_hex. by rewrite hex_of_bytes_length, length_fmap, length_seq.
Qed.

Section client_facts.
Context `{PyLib}.

(** The three query parameters have distinct keys, so signing them does not
    raise and a request is always built. *)
Lemma make_request_returns (self : BitunixClient) (w : world) (t : Z)
    (n : nat) (skip : Z) :
  ∃ rq, make_request self w t n skip = Return rq
        ∧ header_nonce rq = token_hex w (8 * n) 8
        ∧ param_startTime rq = t ∧ param_skip rq = skip ∧ param_limit rq = limit.
Proof.
  unfold make_request, sign_request. cbv beta iota.
  set (params := [("startTime", SInt t); ("skip", SInt skip); ("limit", SInt limit)]).
  destruct (sorted_items params) as (s & -> & _).
  { unfold is_dict, params. simpl. by apply (bool_decide_unpack _). }
  simpl. eauto 10.
Qed.

Lemma scan_page_newer (t : Z) (page trades : list json) :
  Forall (newer_than t) trades → Forall (newer_than t) (scan_page t page trades).1.
Proof.
  revert trades. induction page as [|tr page IH]; intros trades Hall; simpl; [done|].
  destruct (ctime_of tr) as [ctime|e] eqn:Hc; [|done].
  apply IH. destruct (ctime >? t) eqn:Hgt; [|done].
  apply Forall_app. split; [done|].
  apply Forall_singleton. exists ctime. split; [done|]. lia.
Qed.

Lemma handle_response_newer (t : Z) (n : nat) (skip : Z) (trades : list json)
    (r : response) :
  Forall (newer_than t) trades →
  Forall (newer_than t) (step_trades (handle_response t n skip trades r)).
Proof.
  intros Hall. unfold handle_response.
  repeat (case_match; simpl; try done); subst.
  all: match goal with
       | E : scan_page _ ?p ?tr = _ |- _ =>
           pose proof (scan_page_newer t p tr Hall) as Hs; by rewrite E in Hs
       end.
Qed.

Lemma fetch_loop_newer (fuel : nat) (self : BitunixClient) (w : world) (t : Z)
    (n : nat) (skip : Z) (trades : list json) (sent : list request)
    (out : list json) :
  Forall (newer_than t) trades →
  (fetch_loop fuel self w t n skip trades sent).2 = Some (Return out) →
  Forall (newer_than t) out.
Proof.
  revert n skip trades sent.
  induction fuel as [|fuel IH]; intros n skip trades sent Hall;
    cbn [fetch_loop]; [done|].
  destruct (make_request self w t n skip) as [rq|e]; [|done].
  pose proof (handle_response_newer t n skip trades (server w n rq) Hall) as Hstep.
  destruct (handle_response t n skip trades (server w n rq)); cbn [step_trades snd] in *.
  - by apply IH.
  - by intros [= <-].
  - done.
Qed.

(** C2. Every record [fetch_trades(t)] returns has a creation timestamp
    strictly greater than [t]. *)
Theorem fetch_trades_strictly_newer (fuel : nat) (self : BitunixClient)
    (w : world) (t : Z) (trades : list json) :
  fetch_trades fuel self w t = Some (Return trades) →
  Forall (newer_than t) trades.
Proof. apply fetch_loop_newer. constructor. Qed.

(** The trace of requests plays no part in what the loop returns. *)
Lemma fetch_loop_sent_irrelevant (fuel : nat) (self : BitunixClient) (w : world)
    (t : Z) (n : nat) (skip : Z) (trades : list json) (sent sent' : list request) :
  (fetch_loop fuel self w t n skip trades sent).2
  = (fetch_loop fuel self w t n skip trades sent').2.
Proof.
  revert n skip trades sent sent'.
  induction fuel as [|fuel IH]; intros; cbn [fetch_loop]; [done|].
  destruct (make_request self w t n skip) as [rq|e]; [|done].
  destruct (handle_response t n skip trades (server w n rq)); [apply IH|done..].
Qed.

(** Running from the start is running from the state of pass [n], once the
    loop gets there. *)
Lemma fetch_loop_from_pass (self : BitunixClient) (w : world) (t : Z)
    (n : nat) (skip : Z) (trades : list json) (fuel : nat) :
  pass_state self w t n = Some (skip, trades) →
  fetch_trades (n + fuel) self w t
  = (fetch_loop fuel self w t n skip trades []).2.
Proof.
  unfold fetch_trades, fetch_trades_sent.
  revert skip trades fuel. induction n as [|n IH]; intros skip trades fuel.
  - by intros [= <- <-].
  - cbn [pass_state].
    destruct (pass_state self w t n) as [[skip0 trades0]|]; [|done].
    cbn [mbind option_bind].
    destruct (make_request self w t n skip0) as [rq|e] eqn:Hrq; [|done].
    destruct (handle_response t n skip0 trades0 (server w n rq)) eqn:Hstep;
      [|done..].
    intros [= <- <-].
    replace (S n + fuel)%nat with (n + S fuel)%nat by lia.
    rewrite (IH skip0 trades0 (S fuel) eq_refl).
    cbn [fetch_loop]. rewrite Hrq, Hstep.
    apply fetch_loop_sent_irrelevant.
Qed.

(** Each of the answers of [stops_on] makes the pass break, with what the
    relation says has been accumulated. *)
Lemma stops_on_break (t : Z) (n : nat) (skip : Z) (trades out : list json)
    (r : response) :
  stops_on t trades r out → handle_response t n skip trades r = Break out.
Proof.
  destruct 1 as [d page Herr Hpage Hlen|d Herr Hpage|d e Herr| | |];
    cbn [handle_response]; try done.
  - rewrite Herr. rewrite bool_decide_eq_false_2 by (by intros [? ?]).
    unfold page_of in Hpage.
    destruct (default (JDict ∅) (d !! "data")) as [| | | | |data]; try done.
    destruct (default (JList []) (data !! "tradeList")) as [| | | |page'|];
      try done.
    injection Hpage as ->. cbn [truthy].
    rewrite bool_decide_eq_false_2 by (intros ->; simpl in Hlen; lia).
    cbn [negb]. unfold kept.
    destruct (scan_page t page trades) as [trades' [e|]]; [done|].
    cbn [fst]. unfold limit.
    destruct (Z.ltb_spec (Z.of_nat (length page)) 100); [done|lia].
  - rewrite Herr. rewrite bool_decide_eq_false_2 by (by intros [? ?]).
    unfold page_of in Hpage.
    destruct (default (JDict ∅) (d !! "data")) as [| | | | |data]; try done.
    destruct (default (JList []) (data !! "tradeList")) as [| | | |page'|];
      try done.
    by injection Hpage as ->.
  - rewrite Herr. by rewrite bool_decide_eq_true_2.
Qed.


Lemma handle_response_propagate (t : Z) (n : nat) (skip : Z)
    (trades : list json) (r : response) (e : exn) :
  handle_response t n skip trades r = Propagate e →
  r = GetRaises true ∧ n = 0%nat ∧ e = UnboundLocalError.
Proof.
  unfold handle_response. repeat case_match; try done.
  intros [= <-]. by case_bool_decide.
Qed.

Lemma fetch_loop_raises (fuel : nat) (self : BitunixClient) (w : world) (t : Z)
    (n : nat) (skip : Z) (trades : list json) (sent : list request) (e : exn) :
  (fetch_loop fuel self w t n skip trades sent).2 = Some (Raise e) →
  n = 0%nat ∧ e = UnboundLocalError
  ∧ ∃ rq, make_request self w t n skip = Return rq
          ∧ server w n rq = GetRaises true.
Proof.
  revert n skip trades sent.
  induction fuel as [|fuel IH]; intros n skip trades sent; cbn [fetch_loop];
    [done|].
  destruct (make_request_returns self w t n skip) as (rq & Hrq & _).
  rewrite Hrq.
  destruct (handle_response t n skip trades (server w n rq)) eqn:Hstep.
  - by intros [? _]%IH.
  - done.
  - intros [= <-].
    apply handle_response_propagate in Hstep as (Hr & -> & ->). eauto.
Qed.

(** [fetch_trades] raises in one case only: [session.get] raises a
    [ValueError] for the first request, and the handler that catches it reads
    [resp] before any response was bound to it. *)
Theorem fetch_trades_raises_only_unbound (fuel : nat) (self : BitunixClient)
    (w : world) (t : Z) (e : exn) :
  fetch_trades fuel self w t = Some (Raise e) →
  e = UnboundLocalError
  ∧ ∃ rq, make_request self w t 0 0 = Return rq
          ∧ server w 0 rq = GetRaises true.
Proof. by intros (_ & ? & ?)%fetch_loop_raises. Qed.

Lemma fetch_loop_nonces (fuel : nat) (self : BitunixClient) (w : world) (t : Z)
    (n : nat) (skip : Z) (trades : list json) (sent : list request)
    (P : request → Prop) :
  (∀ m s rq, make_request self w t m s = Return rq → P rq) →
  Forall P sent →
  Forall P (fetch_loop fuel self w t n skip trades sent).1.
Proof.
  intros Hmake. revert n skip trades sent.
  induction fuel as [|fuel IH]; intros n skip trades sent Hsent;
    cbn [fetch_loop]; [done|].
  destruct (make_request self w t n skip) as [rq|e] eqn:Hrq; [|done].
  assert (Forall P (rq :: sent)) by (constructor; eauto).
  destruct (handle_response t n skip trades (server w n rq)); [by apply IH|done..].
Qed.

(** C7, amended. Every request [fetch_trades] sends carries a nonce of 8
    bytes read from the system's random generator ([secrets.token_hex(8)]),
    written as 16 hexadecimal characters. *)
Theorem fetch_trades_nonce (fuel : nat) (self : BitunixClient) (w : world)
    (t : Z) :
  Forall (λ rq, (∃ n, header_nonce rq = token_hex w (8 * n) 8)
                ∧ String.length (header_nonce rq) = 16%nat)
         (fetch_trades_sent fuel self w t).1.
Proof.
  apply fetch_loop_nonces; [|constructor].
  intros m s rq Hrq.
  destruct (make_request_returns self w t m s) as (rq' & Hrq' & Hnonce & _).
  assert (rq' = rq) as -> by congruence.
  rewrite Hnonce. split; [by exists m|]. by rewrite token_hex_length.
Qed.

End client_facts.

(** ** Checkpoint store *)

Section store_facts.
Context `{PyLib}.

(** Without a state file, [load_state] is [load] as specified. *)
Lemma load_state_first_run (fs : disk) :
  STATE_FILE fs = None → load_state fs = load_as_specified fs.
Proof.
  intros Hst.
  unfold load_state, load_as_specified, persisted_checkpoint,
    configured_start_time, instant_ms, falsy.
  rewrite Hst. simpl.
  destruct (CREDENTIALS_FILE fs) as [cfg|]; simpl; [|done].
  destruct (cfg !! "start_time") as [s|]; simpl; [|done].
  by case_bool_decide.
Qed.

(** C6, amended. [load_state] returns the persisted checkpoint when the
    state file holds one, and 0 when the state file exists without one. When
    there is no state file: if the configuration holds a start time it
    returns that instant in milliseconds since the epoch, and raises if and
    only if the start time is malformed; otherwise it returns 0. *)
Theorem load_state_cases (fs : disk) :
  (∀ data t, STATE_FILE fs = Some data → data !! "last_time" = Some t →
     load_state fs = Return t)
  ∧ (∀ data, STATE_FILE fs = Some data → data !! "last_time" = None →
     load_state fs = Return 0)
  ∧ (∀ start_time, STATE_FILE fs = None →
     configured_start_time fs = Some start_time →
     (∀ ms, instant_ms start_time = Some ms → load_state fs = Return ms)
     ∧ ((∃ e, load_state fs = Raise e) ↔ instant_ms start_time = None))
  ∧ (STATE_FILE fs = None → configured_start_time fs = None →
     load_state fs = Return 0).
Proof.
  split; [|split; [|split]].
  - intros data t Hst Ht. unfold load_state. by rewrite Hst, Ht.
  - intros data Hst Ht. unfold load_state. by rewrite Hst, Ht.
  - intros start_time Hst Hcfg. rewrite load_state_first_run by done.
    unfold load_as_specified, persisted_checkpoint.
    rewrite Hst. simpl. rewrite Hcfg.
    destruct (instant_ms start_time) as [ms0|]; split.
    + by intros ms [= ->].
    + split; [by intros [e ?]|done].
    + done.
    + split; [done|]. intros _. by exists ValueError.
  - intros Hst Hcfg. rewrite load_state_first_run by done.
    unfold load_as_specified, persisted_checkpoint.
    rewrite Hst. simpl. by rewrite Hcfg.
Qed.

(** With a state file, [load_state] answers from it alone. *)
Lemma load_state_from_state_file (fs : disk) (data : gmap string Z)
    (cfg : option (gmap string string)) :
  STATE_FILE fs = Some data →
  load_state (with_credentials cfg fs) = Return (default 0 (data !! "last_time")).
Proof. intros Hst. unfold load_state, with_credentials. simpl. by rewrite Hst. Qed.

Lemma with_credentials_same (fs : disk) :
  with_credentials (CREDENTIALS_FILE fs) fs = fs.
Proof. by destruct fs. Qed.

(** C10. When the state file exists, [load_state] returns the same value
    whatever the configuration holds, and 0 when the file has no last_time
    entry; so a configuration that changes what [load_state] returns does so
    only when the state file is absent. *)
Theorem load_state_ignores_config (fs : disk) (cfg : option (gmap string string)) :
  (∀ data, STATE_FILE fs = Some data →
     load_state (with_credentials cfg fs) = load_state fs
     ∧ (data !! "last_time" = None → load_state fs = Return 0))
  ∧ (load_state (with_credentials cfg fs) ≠ load_state fs → STATE_FILE fs = None).
Proof.
  assert (∀ data, STATE_FILE fs = Some data →
            load_state (with_credentials cfg fs) = load_state fs) as Hsame.
  { intros data Hst.
    rewrite <- (with_credentials_same fs) at 2.
    by rewrite !(load_state_from_state_file fs data). }
  split.
  - intros data Hst. split; [by apply (Hsame data)|].
    intros Hmissing. rewrite <- (with_credentials_same fs).
    by rewrite (load_state_from_state_file fs data), Hmissing.
  - intros Hne. destruct (STATE_FILE fs) as [data|] eqn:Hst; [|done].
    destruct Hne. by apply (Hsame data).
Qed.

End store_facts.

(** ** Normalizer *)

Lemma mapM_Forall2 {A B} (f : A → result B) (Q : A → B → Prop) (l : list A) :
  Forall (λ x, ∃ y, f x = Return y ∧ Q x y) l →
  ∃ ys, mapM f l = Return ys ∧ Forall2 (λ x y, f x = Return y ∧ Q x y) l ys.
Proof.
  induction 1 as [|x l (y & Hy & HQ) _ (ys & Hys & Hall)]; simpl.
  - exists []. by split.
  - exists (y :: ys). rewrite Hy, Hys. split; [done|]. by constructor.
Qed.

(** The years of the days from 0001-01-01 to 9999-12-31. *)
Lemma civil_year_range (days : Z) :
  -719162 ≤ days ≤ 2932896 → 1 ≤ (civil_from_days days).1.1 ≤ 9999.
Proof.
  intros Hd. unfold civil_from_days. cbv zeta.
  set (z := days + 719468).
  set (era := z / 146097).
  set (doe := z - era * 146097).
  set (yoe := (doe - doe / 1460 + doe / 36524 - doe / 146096) / 365).
  set (doy := doe - (365 * yoe + yoe / 4 - yoe / 100)).
  set (mp := (5 * doy + 2) / 153).
  assert (0 ≤ era ≤ 24) by (unfold era, z; Z.div_mod_to_equations; lia).
  assert (0 ≤ doe ≤ 146096) by (unfold doe, era; Z.div_mod_to_equations; lia).
  assert (306 ≤ era * 146097 + doe ≤ 3652364) by (unfold doe, z; lia).
  cbn [fst].
  destruct (mp <? 10) eqn:Hmp; destruct (_ <=? 2) eqn:Hm; cbn [fst];
    rewrite ?Z.ltb_lt, ?Z.ltb_ge, ?Z.leb_le, ?Z.leb_gt in *.
  all: unfold mp, doy, yoe in *; clearbody doe era; clear Hd;
    Z.div_mod_to_equations; lia.
Qed.

Lemma fromtimestamp_utc_in_range (ctime : Z) :
  min_ms ≤ ctime < max_ms → ∃ dt, fromtimestamp_utc ctime = Return dt.
Proof.
  unfold min_ms, max_ms. intros Hc. unfold fromtimestamp_utc. cbv zeta.
  pose proof (civil_year_range (ctime / 1000 / 86400)) as Hy.
  destruct (civil_from_days (ctime / 1000 / 86400)) as [[y m] d].
  cbn [fst] in Hy.
  assert (1 ≤ y ≤ 9999) as [Hlo Hhi] by (apply Hy; Z.div_mod_to_equations; lia).
  apply Z.leb_le in Hlo, Hhi. rewrite Hlo, Hhi. simpl. eauto.
Qed.

Section normalizer_facts.
Context `{PyLib}.

Lemma transform_row_exportable (tr : json) :
  exportable tr → ∃ r, transform_row tr = Return r ∧ blank_where_missing tr r.
Proof.
  intros (d & ctime & -> & Hc & Hrange & Hside). unfold transform_row.
  rewrite Hc. cbn [bind].
  destruct (fromtimestamp_utc_in_range ctime Hrange) as [dt Hdt].
  rewrite Hdt. cbn [bind].
  assert (∃ side, match get_or_blank d "side" with
                  | JStr side => Return (str_upper side)
                  | _ => Raise AttributeError
                  end = Return side
                  ∧ (d !! "side" = None → side = "")) as (side & -> & Hblank).
  { unfold get_or_blank. destruct (d !! "side") as [v|] eqn:Hv; simpl.
    - destruct (Hside v eq_refl) as [s ->]. by eexists.
    - exists (str_upper ""). split; [done|]. intros _. apply str_upper_empty. }
  cbn [bind]. eexists. split; [done|].
  intros d' [= <-]. unfold get_or_blank. simpl.
  split; [by intros ->|]. split; [exact Hblank|].
  split; [by intros ->|]. split; [by intros ->|]. split; [by intros ->|].
  intros Hmissing. simpl in Hc. rewrite Hmissing in Hc. simpl in Hc.
  injection Hc as <-. vm_compute in Hdt. by injection Hdt as <-.
Qed.

(** The keys [sorted] computes are the creation timestamps. *)
Lemma keyed_by_ctime (trades : list json) :
  Forall exportable trades →
  ∃ keyed,
    mapM (λ x, let* k := ctime_of x in Return (k, x)) trades = Return keyed
    ∧ keyed.*2 = trades
    ∧ Forall (λ kx, ctime_of kx.2 = Return kx.1) keyed.
Proof.
  induction 1 as [|tr trades (d & c & -> & Hc & _) _ (keyed & Hk & Hsnd & Hall)].
  - exists []. by repeat split.
  - exists ((c, JDict d) :: keyed). cbn [mapM]. rewrite Hc, Hk. cbn [bind].
    repeat split; [by rewrite fmap_cons, Hsnd|by constructor].
Qed.

Lemma sorted_keys_ctime_le (l : list (Z * json)) :
  Forall (λ kx, ctime_of kx.2 = Return kx.1) l →
  StronglySorted (λ a b, a.1 ≤ b.1) l →
  StronglySorted ctime_le l.*2.
Proof.
  intros Hkeys. induction 1 as [|a l Hs IH Hle]; [constructor|].
  apply Forall_cons in Hkeys as [Ha Hkeys].
  rewrite fmap_cons. constructor; [by apply IH|].
  apply Forall_fmap, Forall_forall. intros b Hb.
  rewrite Forall_forall in Hle, Hkeys.
  exists a.1, b.1. repeat split; [done|by apply Hkeys|by apply Hle].
Qed.

(** C9, amended. For every list of exportable records, [transform_trades]
    succeeds with exactly one row per record, the rows in ascending order of
    the records' creation timestamps whatever the order of the input; a
    missing symbol, side, quantity, price or fee gives a blank field, and a
    missing creation timestamp counts as 0, the epoch. *)
Theorem transform_trades_rows (trades : list json) :
  Forall exportable trades →
  ∃ ordered rows,
    transform_trades trades = Return rows
    ∧ length rows = length trades
    ∧ ordered ≡ₚ trades
    ∧ StronglySorted ctime_le ordered
    ∧ Forall2 (λ tr r, transform_row tr = Return r ∧ blank_where_missing tr r)
        ordered rows.
Proof.
  intros Hall.
  destruct (keyed_by_ctime trades Hall) as (keyed & Hkeyed & Hsnd & Hkeys).
  destruct (sorted_spec (λ a b : Z * json, Return (a.1 <? b.1))
              (λ a b, a.1 ≤ b.1) (λ _, True)) with (l := keyed)
    as (s & Hs & Hperm & Hsorted).
  { intros a b _ _. exists (a.1 <? b.1). split; [done|].
    destruct (Z.ltb_spec a.1 b.1); lia. }
  { intros a b c. lia. }
  { by apply Forall_forall. }
  assert (s.*2 ≡ₚ trades) as Hperm2 by (by rewrite Hperm, Hsnd).
  destruct (mapM_Forall2 (λ kx : Z * json, transform_row kx.2)
              (λ kx r, blank_where_missing kx.2 r) s)
    as (rows & Hrows & Hall2).
  { apply Forall_forall. intros kx Hkx.
    apply transform_row_exportable.
    rewrite Forall_forall in Hall. apply Hall. rewrite <- Hperm2.
    apply list_elem_of_fmap. by exists kx. }
  exists s.*2, rows. unfold transform_trades, sorted_by_ctime.
  rewrite Hkeyed. cbn [bind]. rewrite Hs. cbn [bind].
  repeat split; [done| |done| |].
  - rewrite <- (Forall2_length _ _ _ Hall2), <- (Permutation_length Hperm2).
    by rewrite length_fmap.
  - apply sorted_keys_ctime_le; [|done]. by rewrite Hperm.
  - by apply Forall2_fmap_l.
Qed.

End normalizer_facts.

(** ** Orchestrator *)

Lemma foldl_max_spec (x : Z) (l : list Z) :
  foldl Z.max x l ∈ x :: l ∧ Forall (λ y, y ≤ foldl Z.max x l) (x :: l).
Proof.
  revert x. induction l as [|y l IH]; intros x; simpl.
  - split; [by left|]. by repeat constructor.
  - destruct (IH (Z.max x y)) as [Hin Hall].
    apply Forall_cons in Hall as [Hmax Hall]. split.
    + apply elem_of_cons in Hin as [Heq|Hin]; [|by do 2 right].
      rewrite Heq. destruct (Z.max_spec x y) as [[_ ->]|[_ ->]];
        [right; left|left]; done.
    + repeat constructor; [lia..|done].
Qed.

Lemma mapM_inv {A B} (f : A → result B) (l : list A) (ys : list B) :
  mapM f l = Return ys → Forall2 (λ x y, f x = Return y) l ys.
Proof.
  revert ys. induction l as [|x l IH]; intros ys; simpl.
  - intros [= <-]. constructor.
  - destruct (f x) as [y|] eqn:Hy; [|done]. simpl.
    destruct (mapM f l) as [ys'|]; [|done]. simpl.
    intros [= <-]. constructor; [done|]. by apply IH.
Qed.

Lemma Forall2_elem_r {A B} (P : A → B → Prop) (l : list A) (k : list B) (y : B) :
  Forall2 P l k → y ∈ k → ∃ x, x ∈ l ∧ P x y.
Proof.
  induction 1 as [|x y' l k HP _ IH]; [by intros ?%elem_of_nil|].
  intros [->|Hin]%elem_of_cons.
  - exists x. split; [by left|done].
  - destruct (IH Hin) as (x' & Hx' & HP'). exists x'. split; [by right|done].
Qed.

Section orchestrator_facts.
Context `{PyLib}.

(** [t['ctime']] reads the key [tr.get('ctime', 0)] reads, when it is there. *)
Lemma ctime_item_ctime_of (tr : json) (ctime : Z) :
  ctime_item tr = Return ctime → ctime_of tr = Return ctime.
Proof.
  destruct tr as [| | | | |d]; try done. simpl.
  by destruct (d !! "ctime").
Qed.

Lemma py_max_ctime (trades : list json) (latest : Z) :
  bind (mapM ctime_item trades) py_max = Return latest →
  max_ctime trades latest.
Proof.
  destruct (mapM ctime_item trades) as [cs|] eqn:Hcs; [|done]. simpl.
  apply mapM_inv in Hcs.
  destruct cs as [|c cs]; [done|]. intros [= <-].
  destruct (foldl_max_spec c cs) as [Hin Hall]. split.
  - destruct (Forall2_elem_r _ _ _ _ Hcs Hin) as (tr & Htr & Hc).
    exists tr. split; [done|]. by apply ctime_item_ctime_of.
  - eapply Forall2_Forall_l; [exact Hcs|].
    eapply Forall_impl; [exact Hall|]. intros y Hy tr Hc.
    exists y. split; [by apply ctime_item_ctime_of|done].
Qed.

(** C3. A run that fetches at least one new trade and completes saves a
    checkpoint that is at least (indeed above) the checkpoint it loaded, and
    that is the maximum creation timestamp among the trades it exported. *)
Theorem checkpoint_is_max_exported (fuel : nat) (output : option string)
    (w : world) (fs fs' : disk) (count : nat) (name : string) :
  main fuel output w fs = Some (fs', Exported count name) →
  ∃ (client : BitunixClient) (last latest : Z) (new_trades : list json)
    (rows : list row),
    load_credentials fs = Return (api_key client, api_secret client)
    ∧ load_state fs = Return last
    ∧ fetch_trades fuel client w last = Some (Return new_trades)
    ∧ transform_trades new_trades = Return rows
    ∧ csv_files fs' !! name = Some rows
    ∧ persisted_checkpoint fs' = Some latest
    ∧ load_state fs' = Return latest
    ∧ last < latest
    ∧ max_ctime new_trades latest.
Proof.
  unfold main.
  destruct (load_credentials fs) as [[key secret]|]; [|done].
  destruct (new_client key secret) as [client|] eqn:Hclient; [|done].
  assert (key = api_key client ∧ secret = api_secret client) as [-> ->].
  { unfold new_client in Hclient.
    destruct (_ || _); [done|]. by injection Hclient as <-. }
  destruct (load_state fs) as [last|]; [|done].
  destruct (fetch_trades fuel client w last) as [[new_trades|]|] eqn:Hfetch;
    [|done..].
  destruct new_trades as [|tr0 new_trades]; [done|].
  destruct (transform_trades (tr0 :: new_trades)) as [rows|] eqn:Hrows; [|done].
  destruct (bind (mapM ctime_item (tr0 :: new_trades)) py_max)
    as [latest|] eqn:Hmax; [|done].
  intros [= <- <- <-].
  apply py_max_ctime in Hmax.
  exists client, last, latest, (tr0 :: new_trades), rows.
  repeat split; try done.
  - apply lookup_insert_eq.
  - destruct Hmax as [(tr & Htr & Hc) _].
    pose proof (fetch_loop_newer _ _ _ _ _ _ _ _ _ (Forall_nil_2 _) Hfetch) as Hnew.
    rewrite Forall_forall in Hnew.
    destruct (Hnew tr Htr) as (c & Hc' & Hlt). congruence.
  - apply Hmax.
  - apply Hmax.
Qed.

(** C8. A run in which [fetch_trades] returns no trade ends at the early
    return with the disk as it found it: no report is written and the
    persisted checkpoint is unchanged. *)
Theorem no_new_trades_no_effect (fuel : nat) (output : option string)
    (w : world) (fs : disk) (key secret : string) (client : BitunixClient)
    (last : Z) :
  load_credentials fs = Return (key, secret) →
  new_client key secret = Return client →
  load_state fs = Return last →
  fetch_trades fuel client w last = Some (Return []) →
  main fuel output w fs = Some (fs, NoNewTrades).
Proof. unfold main. by intros -> -> -> ->. Qed.


(** Without a credentials file the run fails before the first request, with
    the disk as it found it. *)
Theorem missing_credentials_abort (fuel : nat) (output : option string)
    (w : world) (fs : disk) :
  CREDENTIALS_FILE fs = None →
  main fuel output w fs = Some (fs, Failed FileNotFoundError).
Proof. intros Hcfg. unfold main, load_credentials. by rewrite Hcfg. Qed.

End orchestrator_facts.

(** ** Worked runs

    The theorems above at the test data of [Demo], with CPython's functions
    as [plain] gives them. *)

Lemma sign_request_double_sha256_witness :
  sign_request Demo.client "abcd" "1700000000000" (Some Demo.params)
    (Some Demo.body)
  = Return "8ada511472607925d2c2116c6ea76d9854070d65f2eb6d655add2552ea8a6d19".
Proof.
  etrans.
  - eapply (sign_request_double_sha256 Demo.client "abcd" "1700000000000"
              (Some Demo.params) (Some Demo.body) (reverse Demo.params)).
    + unfold is_dict. simpl. by apply (bool_decide_unpack _).
    + apply reverse_Permutation.
    + repeat constructor.
    + eexists. split; [vm_compute; reflexivity|reflexivity].
  - vm_compute. reflexivity.
Defined.

Lemma sign_request_insertion_order_witness :
  sign_request Demo.client "abcd" "1700000000000" (Some Demo.params) None
  = sign_request Demo.client "abcd" "1700000000000"
      (Some (reverse Demo.params)) None.
Proof.
  apply (sign_request_insertion_order Demo.client "abcd" "1700000000000"
           Demo.params (reverse Demo.params) None).
  - unfold is_dict. simpl. by apply (bool_decide_unpack _).
  - symmetry. apply reverse_Permutation.
Defined.

Lemma fetch_trades_strictly_newer_witness :
  fetch_trades 3 Demo.client Demo.two_pages 1000
  = Some (Return (replicate 100 (Demo.trade (JInt 2000))
                    ++ [Demo.trade (JStr "3000"); Demo.trade (JInt 2500)]))
  ∧ Forall (newer_than 1000)
      (replicate 100 (Demo.trade (JInt 2000))
         ++ [Demo.trade (JStr "3000"); Demo.trade (JInt 2500)]).
Proof.
  assert (fetch_trades 3 Demo.client Demo.two_pages 1000
          = Some (Return (replicate 100 (Demo.trade (JInt 2000))
                            ++ [Demo.trade (JStr "3000"); Demo.trade (JInt 2500)])))
    as Hrun by reflexivity.
  split; [exact Hrun|].
  exact (fetch_trades_strictly_newer 3 Demo.client Demo.two_pages 1000 _ Hrun).
Defined.


(** C7, as stated, fails: the one request of this run carries a nonce of 16
    hexadecimal characters, 8 bytes, where the claim asks for at least 32. *)
Lemma nonce_is_sixteen_hex_characters :
  ∃ rq, (fetch_trades_sent 1 Demo.client Demo.two_pages 1000).1 = [rq]
        ∧ header_nonce rq = "0011223344556677"
        ∧ (String.length (header_nonce rq) < 32)%nat.
Proof.
  eexists. split; [vm_compute; reflexivity|].
  split; [reflexivity|]. simpl. lia.
Qed.

(** C6, as stated, fails: the state file exists and holds no checkpoint, the
    configuration names the start of 2024, and [load_state] returns 0 where
    the claim has it return that instant. *)
Lemma load_state_skips_config_when_state_file_exists :
  persisted_checkpoint Demo.disk_without_checkpoint = None
  ∧ configured_start_time Demo.disk_without_checkpoint
    = Some "2024-01-01T00:00:00Z"
  ∧ load_as_specified Demo.disk_without_checkpoint = Return 1704067200000
  ∧ load_state Demo.disk_without_checkpoint = Return 0.
Proof. repeat split; vm_compute; reflexivity. Qed.

Lemma load_state_cases_witness :
  load_state (Demo.first_run "2024-01-01T00:00:00Z") = Return 1704067200000
  ∧ ((∃ e, load_state (Demo.first_run "yesterday") = Raise e)
     ↔ instant_ms "yesterday" = None).
Proof.
  split.
  - pose proof (load_state_cases (Demo.first_run "2024-01-01T00:00:00Z"))
      as (_ & _ & Hconfigured & _).
    destruct (Hconfigured "2024-01-01T00:00:00Z" eq_refl eq_refl) as [Hms _].
    apply Hms. reflexivity.
  - pose proof (load_state_cases (Demo.first_run "yesterday"))
      as (_ & _ & Hconfigured & _).
    by destruct (Hconfigured "yesterday" eq_refl eq_refl) as [_ Hraises].
Defined.

Lemma load_state_ignores_config_witness :
  load_state (with_credentials None Demo.disk_without_checkpoint)
  = load_state Demo.disk_without_checkpoint
  ∧ load_state Demo.disk_without_checkpoint = Return 0.
Proof.
  destruct (proj1 (load_state_ignores_config Demo.disk_without_checkpoint None)
              ∅ eq_refl) as [Hsame Hzero].
  split; [exact Hsame|]. by apply Hzero.
Defined.

(** C9, as stated, fails: a record dated in the year 10000, a record whose
    creation timestamp is null and a record whose side is a number each make
    [transform_trades] raise; and a record without a creation timestamp gets
    the date of the epoch, not a blank. *)
Lemma transform_trades_raises_and_dates_the_epoch :
  transform_trades [Demo.trade (JInt 253402300800000)] = Raise ValueError
  ∧ transform_trades [Demo.trade JNull] = Raise TypeError
  ∧ transform_trades [JDict {[ "side" := JInt 1 ]}] = Raise AttributeError
  ∧ (λ r, (Date r, Time r)) <$> default [] (match transform_trades [JDict ∅] with
                                            | Return rows => Some rows
                                            | Raise _ => None
                                            end)
    = [("1/1/70", "00:00:00")].
Proof. repeat split; vm_compute; reflexivity. Qed.

Lemma transform_trades_rows_witness :
  ∃ ordered rows,
    transform_trades
      [Demo.trade (JStr "3000"); JDict ∅; Demo.trade (JInt 2500)] = Return rows
    ∧ length rows = 3%nat
    ∧ ordered ≡ₚ [Demo.trade (JStr "3000"); JDict ∅; Demo.trade (JInt 2500)]
    ∧ StronglySorted ctime_le ordered
    ∧ Forall2 (λ tr r, transform_row tr = Return r ∧ blank_where_missing tr r)
        ordered rows.
Proof.
  apply (transform_trades_rows
           [Demo.trade (JStr "3000"); JDict ∅; Demo.trade (JInt 2500)]).
  repeat (apply Forall_cons; split); [..|apply Forall_nil_2].
  - eexists; exists 3000. split; [reflexivity|]. split; [reflexivity|].
    split; [unfold min_ms, max_ms; lia|].
    intros side Hside. vm_compute in Hside. injection Hside as <-. by eexists.
  - eexists; exists 0. split; [reflexivity|]. split; [reflexivity|].
    split; [unfold min_ms, max_ms; lia|].
    intros side Hside. by vm_compute in Hside.
  - eexists; exists 2500. split; [reflexivity|]. split; [reflexivity|].
    split; [unfold min_ms, max_ms; lia|].
    intros side Hside. vm_compute in Hside. injection Hside as <-. by eexists.
Defined.

Lemma checkpoint_is_max_exported_witness :
  ∃ fs' latest,
    main 3 None Demo.two_pages (Demo.disk_at 1000)
    = Some (fs', Exported 102 "new_trades_20231114_221320.csv")
    ∧ persisted_checkpoint fs' = Some latest
    ∧ 1000 < latest.
Proof.
  assert (snd <$> main 3 None Demo.two_pages (Demo.disk_at 1000)
          = Some (Exported 102 "new_trades_20231114_221320.csv")) as Hout
    by (vm_compute; reflexivity).
  destruct (main 3 None Demo.two_pages (Demo.disk_at 1000))
    as [[fs' out]|] eqn:Hmain; [|done].
  injection Hout as ->.
  destruct (checkpoint_is_max_exported _ _ _ _ _ _ _ Hmain)
    as (client & last & latest & trades & rows
        & _ & Hload & _ & _ & _ & Hsaved & _ & Hlt & _).
  vm_compute in Hload. injection Hload as <-.
  exists fs', latest. split; [reflexivity|]. split; [exact Hsaved|exact Hlt].
Defined.

Lemma no_new_trades_no_effect_witness :
  main 1 None Demo.old_trades (Demo.disk_at 5000)
  = Some (Demo.disk_at 5000, NoNewTrades).
Proof.
  apply (no_new_trades_no_effect 1 None Demo.old_trades (Demo.disk_at 5000)
           "key" "secret" Demo.client 5000); reflexivity.
Defined.

Lemma fetch_trades_raises_only_unbound_witness :
  fetch_trades 1 Demo.client Demo.refused 1000 = Some (Raise UnboundLocalError)
  ∧ ∃ rq, make_request Demo.client Demo.refused 1000 0 0 = Return rq
          ∧ server Demo.refused 0 rq = GetRaises true.
Proof.
  assert (fetch_trades 1 Demo.client Demo.refused 1000
          = Some (Raise UnboundLocalError)) as Hrun by reflexivity.
  split; [exact Hrun|].
  exact (proj2 (fetch_trades_raises_only_unbound 1 Demo.client Demo.refused 1000
                  _ Hrun)).
Defined.


Lemma missing_credentials_abort_witness :
  main 0 None Demo.two_pages (with_credentials None (Demo.disk_at 1000))
  = Some (with_credentials None (Demo.disk_at 1000), Failed FileNotFoundError).
Proof.
  by apply (missing_credentials_abort 0 None Demo.two_pages
              (with_credentials None (Demo.disk_at 1000))).
Defined.

(* ===================================================================== *)
(** * Further properties *)
(* ===================================================================== *)

(** ** Protocol client, further *)

Section client_more.
Context `{PyLib}.

(** On a page whose timestamps can all be read, the scan keeps exactly the
    records newer than the checkpoint, in the order received. *)
Lemma scan_page_readable (t : Z) (page trades : list json) :
  Forall readable page →
  scan_page t page trades = (trades ++ newer t page, None).
Proof.
  revert trades. induction page as [|tr page IH]; intros trades Hall.
  - simpl. by rewrite app_nil_r.
  - apply Forall_cons in Hall as [[c Hc] Hall]. cbn [scan_page]. rewrite Hc.
    assert (is_newer t tr = (c >? t)) as Hn by (unfold is_newer; by rewrite Hc).
    rewrite (IH _ Hall). unfold newer. rewrite filter_cons, Hn.
    destruct (c >? t).
    + rewrite decide_True by done. by rewrite <- app_assoc.
    + by rewrite decide_False by done.
Qed.

Lemma page_of_truthy (d : gmap string json) (page : list json) :
  page_of d = Some page →
  ∃ data, default (JDict ∅) (d !! "data") = JDict data
          ∧ default (JList []) (data !! "tradeList") = JList page.
Proof.
  unfold page_of.
  destruct (default (JDict ∅) (d !! "data")) as [| | | | |data]; try done.
  destruct (default (JList []) (data !! "tradeList")) as [| | | |page'|] eqn:Hp;
    try done.
  intros [= <-]. by exists data.
Qed.

Lemma handle_response_full_page (t : Z) (n : nat) (skip : Z)
    (trades trades' : list json) (d : gmap string json) (page : list json) :
  d !! "error" = None → page_of d = Some page → (100 ≤ length page)%nat →
  scan_page t page trades = (trades', None) →
  handle_response t n skip trades (Payload (JDict d))
  = Continue (skip + Z.of_nat (length page)) trades'.
Proof.
  intros Herr Hpage Hlen Hscan.
  cbn [handle_response]. rewrite Herr.
  rewrite bool_decide_eq_false_2 by (by intros [? ?]).
  destruct (page_of_truthy d page Hpage) as (data & -> & ->).
  cbn [truthy].
  rewrite bool_decide_eq_false_2 by (intros ->; simpl in Hlen; lia).
  cbn [negb]. rewrite Hscan. unfold limit.
  destruct (Z.ltb_spec (Z.of_nat (length page)) 100); [lia|done].
Qed.

(** X4. The loop goes on to another request exactly after a payload without
    an error whose page holds at least [limit] entries, all of which were
    scanned without an exception; the offset then advances by the number of
    entries received. *)
Theorem handle_response_continue (t : Z) (n : nat) (skip skip' : Z)
    (trades trades' : list json) (r : response) :
  handle_response t n skip trades r = Continue skip' trades'
  ↔ ∃ d page,
      r = Payload (JDict d) ∧ d !! "error" = None ∧ page_of d = Some page
      ∧ (100 ≤ length page)%nat
      ∧ scan_page t page trades = (trades', None)
      ∧ skip' = skip + Z.of_nat (length page).
Proof.
  split.
  - unfold handle_response.
    destruct r as [[|]| | |[| | | | |d]]; try done.
    { by case_bool_decide. }
    case_bool_decide as Herr; [done|].
    destruct (d !! "error") as [e|] eqn:He; [by destruct Herr; eexists|].
    destruct (default (JDict ∅) (d !! "data")) as [| | | | |data] eqn:Hdata;
      try done.
    destruct (default (JList []) (data !! "tradeList")) as [| | | |page|]
      eqn:Hlist; try (by destruct (negb _)).
    destruct (negb (truthy (JList page))); [done|].
    destruct (scan_page t page trades) as [out [e|]] eqn:Hscan; [done|].
    unfold limit.
    destruct (Z.ltb_spec (Z.of_nat (length page)) 100); [done|].
    intros [= <- <-]. exists d, page.
    split; [done|]. split; [done|].
    split; [unfold page_of; by rewrite Hdata, Hlist|]. split; [lia|]. by split.
  - intros (d & page & -> & Herr & Hpage & Hlen & Hscan & ->).
    by apply handle_response_full_page.
Qed.

Lemma newer_app (t : Z) (a b : list json) :
  newer t (a ++ b) = newer t a ++ newer t b.
Proof. apply filter_app. Qed.

(** The last, short answer of a clean run. *)
Lemma handle_response_last_page (t : Z) (n : nat) (skip : Z)
    (trades : list json) (d : gmap string json) (last : list json) :
  d !! "error" = None → page_of d = Some last → (length last < 100)%nat →
  Forall readable last →
  handle_response t n skip trades (Payload (JDict d))
  = Break (trades ++ newer t last).
Proof.
  intros Herr Hpage Hlen Hread.
  destruct last as [|tr last].
  - rewrite (stops_on_break t n skip trades trades (Payload (JDict d)));
      [|by apply empty_page]. by rewrite app_nil_r.
  - rewrite (stops_on_break t n skip trades _ (Payload (JDict d))
               (short_page t trades d (tr :: last) Herr Hpage
                  ltac:(simpl in *; lia))).
    unfold kept. by rewrite scan_page_readable.
Qed.

Lemma fetch_loop_clean (self : BitunixClient) (w : world) (t : Z)
    (pages : list (list json)) (last : list json) :
  ∀ (fuel n : nat) (skip : Z) (trades : list json) (sent : list request),
  (∀ i page, pages !! i = Some page →
     serves w (n + i) page ∧ (100 ≤ length page)%nat ∧ Forall readable page) →
  serves w (n + length pages) last → (length last < 100)%nat →
  Forall readable last →
  (length pages < fuel)%nat →
  ∃ new,
    fetch_loop fuel self w t n skip trades sent
    = (new ++ sent, Some (Return (trades ++ newer t (concat pages ++ last))))
    ∧ param_skip <$> reverse new = offsets skip pages.
Proof.
  induction pages as [|page pages IH];
    intros fuel n skip trades sent Hpages Hlast Hlen Hread Hfuel;
    (destruct fuel as [|fuel]; [simpl in Hfuel; lia|]); cbn [fetch_loop].
  - destruct (make_request_returns self w t n skip)
      as (rq & Hrq & _ & _ & Hskip & _). rewrite Hrq.
    destruct (Hlast rq) as (d & Hd & Herr & Hpage).
    rewrite Nat.add_0_r in Hd. rewrite Hd.
    rewrite (handle_response_last_page t n skip trades d last) by done.
    exists [rq]. split; [done|]. simpl. by rewrite Hskip.
  - destruct (make_request_returns self w t n skip)
      as (rq & Hrq & _ & _ & Hskip & _). rewrite Hrq.
    destruct (Hpages 0%nat page eq_refl) as (Hserves & Hfull & Hreadable).
    destruct (Hserves rq) as (d & Hd & Herr & Hpage).
    rewrite Nat.add_0_r in Hd. rewrite Hd.
    rewrite (handle_response_full_page t n skip trades
               (trades ++ newer t page) d page) by
      (try done; by apply scan_page_readable).
    destruct (IH fuel (S n) (skip + Z.of_nat (length page))
                (trades ++ newer t page) (rq :: sent))
      as (new & Hrun & Hoffsets); try done.
    + intros i p Hp. specialize (Hpages (S i) p Hp).
      by replace (S n + i)%nat with (n + S i)%nat by lia.
    + simpl in Hlast. by replace (S n + length pages)%nat
        with (n + S (length pages))%nat by lia.
    + simpl in Hfuel. lia.
    + exists (new ++ [rq]). rewrite Hrun. split.
      * rewrite <- !app_assoc. simpl. by rewrite !newer_app, <- !app_assoc.
      * rewrite reverse_app, fmap_app, Hoffsets, reverse_singleton.
        cbn [offsets]. simpl. by rewrite Hskip.
Qed.

(** X5. A clean run. When the server answers with full pages whose
    timestamps can all be read and then with a shorter page, [fetch_trades]
    returns every record of those pages that is newer than the checkpoint,
    in the order received, and the requests it sent ask for the offsets at
    which the pages start. *)
Theorem fetch_trades_clean_run (fuel : nat) (self : BitunixClient) (w : world)
    (t : Z) (pages : list (list json)) (last : list json) :
  (∀ i page, pages !! i = Some page →
     serves w i page ∧ (100 ≤ length page)%nat ∧ Forall readable page) →
  serves w (length pages) last → (length last < 100)%nat →
  Forall readable last →
  (length pages < fuel)%nat →
  fetch_trades fuel self w t = Some (Return (newer t (concat pages ++ last)))
  ∧ param_skip <$> reverse (fetch_trades_sent fuel self w t).1
    = offsets 0 pages.
Proof.
  intros Hpages Hlast Hlen Hread Hfuel.
  destruct (fetch_loop_clean self w t pages last fuel 0 0 [] [])
    as (new & Hrun & Hoffsets); try done.
  unfold fetch_trades, fetch_trades_sent. rewrite Hrun. simpl.
  by rewrite app_nil_r.
Qed.

Lemma fetch_loop_endless (self : BitunixClient) (w : world) (t : Z) :
  (∀ n, ∃ page, serves w n page ∧ (100 ≤ length page)%nat
                ∧ Forall readable page) →
  ∀ (fuel n : nat) (skip : Z) (trades : list json) (sent : list request),
  (fetch_loop fuel self w t n skip trades sent).2 = None.
Proof.
  intros Hfull. induction fuel as [|fuel IH]; intros n skip trades sent;
    cbn [fetch_loop]; [done|].
  destruct (make_request_returns self w t n skip) as (rq & Hrq & _).
  rewrite Hrq.
  destruct (Hfull n) as (page & Hserves & Hlen & Hread).
  destruct (Hserves rq) as (d & Hd & Herr & Hpage). rewrite Hd.
  rewrite (handle_response_full_page t n skip trades
             (trades ++ newer t page) d page) by
    (try done; by apply scan_page_readable).
  apply IH.
Qed.

(** X6. Nothing bounds the number of pages. Against a server that answers
    every request with a full page, [fetch_trades] is still running after
    any number of requests. *)
Theorem fetch_trades_unbounded (fuel : nat) (self : BitunixClient) (w : world)
    (t : Z) :
  (∀ n, ∃ page, serves w n page ∧ (100 ≤ length page)%nat
                ∧ Forall readable page) →
  fetch_trades fuel self w t = None.
Proof. intros Hfull. by apply fetch_loop_endless. Qed.

Lemma scan_page_unreadable (t : Z) (before after trades : list json)
    (bad : json) (e : exn) :
  Forall readable before → ctime_of bad = Raise e →
  scan_page t (before ++ bad :: after) trades
  = (trades ++ newer t before, Some e).
Proof.
  intros Hread Hbad. revert trades.
  induction Hread as [|tr before [c Hc] _ IH]; intros trades.
  - simpl. rewrite Hbad. by rewrite app_nil_r.
  - cbn [app scan_page]. rewrite Hc, IH.
    assert (is_newer t tr = (c >? t)) as Hn by (unfold is_newer; by rewrite Hc).
    unfold newer. rewrite filter_cons, Hn.
    destruct (c >? t).
    + rewrite decide_True by done. by rewrite <- app_assoc.
    + by rewrite decide_False by done.
Qed.

(** X9. An entry whose creation timestamp cannot be read ends the fetch:
    whatever the length of its page, [fetch_trades] returns what it had
    accumulated and the newer records that precede the entry on the page;
    the entry, the rest of the page and the later pages are not read. *)
Theorem fetch_trades_unreadable_entry (fuel n : nat) (self : BitunixClient)
    (w : world) (t skip : Z) (trades before after : list json) (bad : json)
    (e : exn) :
  pass_state self w t n = Some (skip, trades) →
  serves w n (before ++ bad :: after) →
  Forall readable before → ctime_of bad = Raise e →
  (n < fuel)%nat →
  fetch_trades fuel self w t = Some (Return (trades ++ newer t before)).
Proof.
  intros Hstate Hserves Hread Hbad Hfuel.
  replace fuel with (n + S (fuel - S n))%nat by lia.
  rewrite (fetch_loop_from_pass _ _ _ _ _ _ _ Hstate). cbn [fetch_loop].
  destruct (make_request_returns self w t n skip) as (rq & -> & _).
  destruct (Hserves rq) as (d & -> & Herr & Hpage).
  cbn [handle_response]. rewrite Herr.
  rewrite bool_decide_eq_false_2 by (by intros [? ?]).
  destruct (page_of_truthy d _ Hpage) as (data & -> & ->).
  cbn [truthy].
  rewrite bool_decide_eq_false_2 by (by destruct before).
  cbn [negb]. by rewrite (scan_page_unreadable t before after trades bad e).
Qed.

Lemma newer_snoc (t : Z) (trades : list json) (tr : json) (ctime : Z) :
  ctime_of tr = Return ctime →
  newer t (trades ++ [tr])
  = if ctime >? t then newer t trades ++ [tr] else newer t trades.
Proof.
  intros Hc. rewrite newer_app. unfold newer at 2.
  assert (is_newer t tr = (ctime >? t)) as Hn by (unfold is_newer; by rewrite Hc).
  rewrite filter_cons, filter_nil, Hn.
  destruct (ctime >? t).
  - by rewrite decide_True.
  - rewrite decide_False by done. by rewrite app_nil_r.
Qed.

(** Scanning for a later checkpoint keeps, of what the scan for an earlier
    one keeps, the records newer than the later one; it stops at the same
    entry. *)
Lemma scan_page_later (t1 t2 : Z) (page trades : list json) :
  t1 ≤ t2 →
  scan_page t2 page (newer t2 trades)
  = (newer t2 (scan_page t1 page trades).1, (scan_page t1 page trades).2).
Proof.
  intros Hle. revert trades.
  induction page as [|tr page IH]; intros trades; cbn [scan_page]; [done|].
  destruct (ctime_of tr) as [c|e] eqn:Hc; [|done].
  rewrite <- IH. f_equal.
  destruct (Z.gtb_spec c t1) as [H1|H1], (Z.gtb_spec c t2) as [H2|H2].
  - rewrite (newer_snoc t2 trades tr c Hc).
    by destruct (Z.gtb_spec c t2); [|lia].
  - rewrite (newer_snoc t2 trades tr c Hc).
    by destruct (Z.gtb_spec c t2); [lia|].
  - lia.
  - done.
Qed.

Lemma handle_response_later (t1 t2 : Z) (n : nat) (skip : Z)
    (trades : list json) (r : response) :
  t1 ≤ t2 →
  handle_response t2 n skip (newer t2 trades) r
  = later_step t2 (handle_response t1 n skip trades r).
Proof.
  intros Hle. unfold handle_response.
  destruct r as [[|]| | |[| | | | |d]]; try done.
  { by case_bool_decide. }
  case_bool_decide; [done|].
  destruct (default (JDict ∅) (d !! "data")) as [| | | | |data]; try done.
  destruct (default (JList []) (data !! "tradeList")) as [| | | |page|];
    try (by destruct (negb _)).
  destruct (negb (truthy (JList page))); [done|].
  rewrite (scan_page_later t1 t2 page trades Hle).
  destruct (scan_page t1 page trades) as [out [e|]]; [done|]. simpl.
  by destruct (_ <? limit).
Qed.

Lemma fetch_loop_later (c1 c2 : BitunixClient) (w1 w2 : world) (t1 t2 : Z) :
  t1 ≤ t2 →
  (∀ n rq1 rq2, server w1 n rq1 = server w2 n rq2) →
  ∀ (fuel n : nat) (skip : Z) (trades : list json) (s1 s2 : list request),
  (fetch_loop fuel c2 w2 t2 n skip (newer t2 trades) s2).2
  = match (fetch_loop fuel c1 w1 t1 n skip trades s1).2 with
    | Some (Return out) => Some (Return (newer t2 out))
    | other => other
    end.
Proof.
  intros Hle Hsame. induction fuel as [|fuel IH]; intros n skip trades s1 s2;
    cbn [fetch_loop]; [done|].
  destruct (make_request_returns c1 w1 t1 n skip) as (rq1 & -> & _).
  destruct (make_request_returns c2 w2 t2 n skip) as (rq2 & -> & _).
  rewrite <- (Hsame n rq1 rq2).
  rewrite (handle_response_later t1 t2 n skip trades (server w1 n rq1) Hle).
  destruct (handle_response t1 n skip trades (server w1 n rq1));
    cbn [later_step snd]; [apply IH|done..].
Qed.

(** X7. Fetching since a later checkpoint. When the answers of the server do
    not depend on the request, [fetch_trades] for a later checkpoint returns
    exactly the records of the fetch for an earlier one that are newer than
    the later one, in the same order. *)
Theorem fetch_trades_later_checkpoint (fuel : nat) (c1 c2 : BitunixClient)
    (w1 w2 : world) (t1 t2 : Z) (out : list json) :
  t1 ≤ t2 →
  (∀ n rq1 rq2, server w1 n rq1 = server w2 n rq2) →
  fetch_trades fuel c1 w1 t1 = Some (Return out) →
  fetch_trades fuel c2 w2 t2 = Some (Return (newer t2 out)).
Proof.
  intros Hle Hsame Hrun. unfold fetch_trades, fetch_trades_sent in *.
  change (@nil json) with (newer t2 []) at 1.
  by rewrite (fetch_loop_later c1 c2 w1 w2 t1 t2 Hle Hsame fuel 0 0 [] [] []), Hrun.
Qed.

Lemma make_request_signed (self : BitunixClient) (w : world) (t : Z) (n : nat)
    (skip : Z) (rq : request) :
  make_request self w t n skip = Return rq →
  header_api_key rq = api_key self
  ∧ header_timestamp rq = str_of_int (clock_ms w n)
  ∧ param_startTime rq = t ∧ param_limit rq = 100
  ∧ sign_request self (header_nonce rq) (header_timestamp rq)
      (Some (params_of rq)) None = Return (header_sign rq).
Proof.
  unfold make_request.
  destruct (sign_request _ _ _ _ _) as [signature|] eqn:Hsign; [|done].
  by intros [= <-].
Qed.

(** X8. Every request [fetch_trades] sends carries the key id of the client,
    the clock reading as its timestamp, the checkpoint as [startTime] and
    100 as [limit], and its [sign] header is the signature of its own nonce,
    timestamp and query parameters. *)
Theorem fetch_trades_requests_signed (fuel : nat) (self : BitunixClient)
    (w : world) (t : Z) :
  Forall (λ rq,
            header_api_key rq = api_key self
            ∧ (∃ n, header_timestamp rq = str_of_int (clock_ms w n))
            ∧ param_startTime rq = t ∧ param_limit rq = 100
            ∧ sign_request self (header_nonce rq) (header_timestamp rq)
                (Some (params_of rq)) None = Return (header_sign rq))
         (fetch_trades_sent fuel self w t).1.
Proof.
  apply fetch_loop_nonces; [|constructor].
  intros m s rq Hrq.
  destruct (make_request_signed self w t m s rq Hrq) as (? & ? & ? & ? & ?).
  eauto 10.
Qed.

End client_more.

(** ** Signer, further *)

Lemma str_append_assoc (a b c : string) : (a +:+ b) +:+ c = a +:+ (b +:+ c).
Proof.
  induction a as [|x a IH]; [done|].
  change (String x ((a +:+ b) +:+ c) = String x (a +:+ (b +:+ c))).
  by rewrite IH.
Qed.

Lemma round_length (s : list Z) (kw : Z * Z) :
  length (Sha256.round s kw) = length s.
Proof.
  unfold Sha256.round.
  destruct s as [|a [|b [|c [|d [|e [|f [|g [|h [|i s]]]]]]]]]; done.
Qed.

Lemma compress_length (h block : list Z) :
  length (Sha256.compress h block) = length h.
Proof.
  unfold Sha256.compress. rewrite length_zip_with.
  assert (∀ l s, length (foldl Sha256.round s l) = length s) as Hfold.
  { induction l as [|kw l IH]; intros s; simpl; [done|].
    by rewrite IH, round_length. }
  rewrite Hfold. lia.
Qed.

Lemma blocks_length (n : nat) (h bs : list Z) :
  length (Sha256.blocks n h bs) = length h.
Proof.
  revert h bs. induction n as [|n IH]; intros h bs; simpl; [done|].
  by rewrite IH, compress_length.
Qed.

Lemma join_be_bytes_length (l : list Z) :
  length (mjoin (be_bytes 4 <$> l)) = (4 * length l)%nat.
Proof.
  induction l as [|x l IH]; [done|].
  change (length (be_bytes 4 x ++ mjoin (be_bytes 4 <$> l))
          = (4 * length (x :: l))%nat).
  rewrite length_app, IH. simpl. lia.
Qed.

(** A SHA-256 digest in hexadecimal is 64 characters long. *)
Lemma hexdigest_length (s : string) : String.length (Sha256.hexdigest s) = 64%nat.
Proof.
  unfold Sha256.hexdigest, Sha256.digest.
  by rewrite hex_of_bytes_length, join_be_bytes_length, blocks_length.
Qed.

Section signer_more.
Context `{PyLib}.

(** X10. Whatever its inputs, a signature [sign_request] returns is 64
    characters long. *)
Theorem sign_request_length (self : BitunixClient) (nonce timestamp : string)
    (query_params : option (list (string * scalar))) (body : option string)
    (sign : string) :
  sign_request self nonce timestamp query_params body = Return sign →
  String.length sign = 64%nat.
Proof.
  unfold sign_request.
  destruct (match query_params with
            | Some ((_ :: _) as items) => _
            | _ => _
            end) as [query_string|]; [|done].
  cbn [bind].
  destruct (match body with
            | Some ((String _ _) as b) => _
            | _ => _
            end) as [compact|]; [|done].
  cbn [bind]. intros [= <-]. apply hexdigest_length.
Qed.

(** With a mapping for its parameters, the query string is built without
    an exception. *)
Lemma query_string_returns (query_params : option (list (string * scalar))) :
  is_dict (default [] query_params) →
  ∃ query_string,
    match query_params with
    | Some ((_ :: _) as items) =>
        let* s := sorted item_lt items in
        Return (join ((λ kv, kv.1 +:+ format kv.2) <$> s))
    | _ => Return ""
    end = Return query_string.
Proof.
  intros Hd. destruct query_params as [[|i items]|]; [by eexists| |by eexists].
  destruct (sorted_items (i :: items) Hd) as (s & -> & _). by eexists.
Qed.

(** X11. With a mapping for its parameters, [sign_request] raises exactly
    when the body is a non-empty string that [json.loads] rejects, and what
    it raises is the [ValueError] of [json.loads]. *)
Theorem sign_request_raises_iff (self : BitunixClient) (nonce timestamp : string)
    (query_params : option (list (string * scalar))) (body : option string)
    (e : exn) :
  is_dict (default [] query_params) →
  sign_request self nonce timestamp query_params body = Raise e
  ↔ e = ValueError ∧ ∃ b, body = Some b ∧ b ≠ "" ∧ json_loads b = None.
Proof.
  intros Hd. unfold sign_request.
  destruct (query_string_returns query_params Hd) as (query_string & ->).
  cbn [bind].
  destruct body as [[|c b]|]; cbn [bind].
  - split; [done|]. by intros (_ & b & [= <-] & ? & _).
  - destruct (json_loads (String c b)) as [o|] eqn:Ho; cbn [bind].
    + split; [done|]. intros (_ & b' & [= <-] & _ & Hb). congruence.
    + split; [intros [= <-]|by intros [-> _]].
      split; [done|]. by exists (String c b).
  - split; [done|]. by intros (_ & b & ? & _).
Qed.

(** X12. The message that is signed marks no boundary between its fields:
    moving characters from the end of the nonce to the start of the
    timestamp, or from the end of a key to the start of its value, leaves
    the signature unchanged. *)
Theorem sign_request_field_boundaries (self : BitunixClient)
    (a b c key value : string)
    (query_params : option (list (string * scalar))) (body : option string) :
  sign_request self (a +:+ b) c query_params body
  = sign_request self a (b +:+ c) query_params body
  ∧ sign_request self a c (Some [(key +:+ b, SStr value)]) body
    = sign_request self a c (Some [(key, SStr (b +:+ value))]) body.
Proof.
  split; unfold sign_request.
  - destruct (match query_params with
              | Some ((_ :: _) as items) => _
              | _ => _
              end) as [query_string|]; [|done].
    cbn [bind].
    destruct (match body with
              | Some ((String _ _) as b) => _
              | _ => _
              end) as [compact|]; [|done].
    cbn [bind]. by rewrite !str_append_assoc.
  - cbn [sorted insert_sorted bind fmap list_fmap join fst snd format].
    destruct (match body with
              | Some ((String _ _) as b) => _
              | _ => _
              end) as [compact|]; [|done].
    cbn [bind]. by rewrite !str_append_assoc.
Qed.

End signer_more.

(** ** Credentials and checkpoint store, further *)

Section store_more.
Context `{PyLib}.

Lemma load_credentials_returns (fs : disk) (key secret : string) :
  load_credentials fs = Return (key, secret)
  ↔ ∃ cfg, CREDENTIALS_FILE fs = Some cfg
           ∧ cfg !! "api_key" = Some key ∧ cfg !! "secret_key" = Some secret
           ∧ key ≠ "" ∧ secret ≠ "".
Proof.
  unfold load_credentials, falsy.
  destruct (CREDENTIALS_FILE fs) as [cfg|];
    [|split; [done|by intros (cfg & ? & _)]].
  destruct (cfg !! "api_key") as [k|] eqn:Hk,
           (cfg !! "secret_key") as [s|] eqn:Hs;
    simpl; repeat case_bool_decide; simpl.
  all: split;
    [intros ?; simplify_eq; eauto 10
    |intros (cfg' & ? & ? & ? & ? & ?); by simplify_eq].
Qed.

Lemma load_credentials_raises (fs : disk) (e : exn) :
  load_credentials fs = Raise e →
  (e = FileNotFoundError ∧ CREDENTIALS_FILE fs = None)
  ∨ (e = KeyError ∧ CREDENTIALS_FILE fs ≠ None).
Proof.
  unfold load_credentials.
  destruct (CREDENTIALS_FILE fs) as [cfg|]; [|intros [= <-]; by left].
  destruct (_ || _); [|done]. intros [= <-]. by right.
Qed.

(** X13. [load_credentials] raises [FileNotFoundError] exactly when the file
    is missing, returns the two keys exactly when the file holds both and
    neither is empty, and raises [KeyError] otherwise; with the keys it
    returns, the constructor of the client does not raise. *)
Theorem load_credentials_cases (fs : disk) :
  (load_credentials fs = Raise FileNotFoundError ↔ CREDENTIALS_FILE fs = None)
  ∧ (∀ key secret,
       load_credentials fs = Return (key, secret)
       ↔ ∃ cfg, CREDENTIALS_FILE fs = Some cfg
                ∧ cfg !! "api_key" = Some key ∧ cfg !! "secret_key" = Some secret
                ∧ key ≠ "" ∧ secret ≠ "")
  ∧ (∀ e, load_credentials fs = Raise e → e = FileNotFoundError ∨ e = KeyError)
  ∧ (∀ key secret,
       load_credentials fs = Return (key, secret) →
       new_client key secret = Return {| api_key := key; api_secret := secret |}).
Proof.
  split; [|split; [|split]].
  - split.
    + intros [[_ Hnone]|[[=] _]]%load_credentials_raises. exact Hnone.
    + intros Hnone. unfold load_credentials. by rewrite Hnone.
  - apply load_credentials_returns.
  - intros e [[-> _]|[-> _]]%load_credentials_raises; [by left|by right].
  - intros key secret (cfg & _ & _ & _ & Hk & Hs)%load_credentials_returns.
    unfold new_client. by rewrite !bool_decide_eq_false_2.
Qed.

(** X14. What [save_state] writes, [load_state] reads back, whatever the
    configuration and whatever the state file held; a second save replaces
    the first; and saving touches neither the credentials nor the reports. *)
Theorem save_state_load_state (t t' : Z) (fs : disk) :
  load_state (save_state t fs) = Return t
  ∧ persisted_checkpoint (save_state t fs) = Some t
  ∧ save_state t (save_state t' fs) = save_state t fs
  ∧ load_credentials (save_state t fs) = load_credentials fs
  ∧ csv_files (save_state t fs) = csv_files fs.
Proof.
  unfold load_state, persisted_checkpoint, save_state, load_credentials. simpl.
  by rewrite lookup_singleton_eq.
Qed.

End store_more.

(** ** Normalizer, further *)

Lemma two_digits_length (n : Z) :
  0 ≤ n < 100 → String.length (two_digits n) = 2%nat.
Proof.
  intros Hn.
  assert (forallb (λ k, Nat.eqb (String.length (two_digits (Z.of_nat k))) 2)
            (seq 0 100) = true) as Hall by (vm_compute; reflexivity).
  rewrite forallb_forall in Hall.
  specialize (Hall (Z.to_nat n)). rewrite Z2Nat.id in Hall by lia.
  apply Nat.eqb_eq, Hall, in_seq. lia.
Qed.

Lemma fromtimestamp_utc_time_of_day (ctime : Z) (dt : datetime) :
  fromtimestamp_utc ctime = Return dt →
  0 ≤ hour dt < 24 ∧ 0 ≤ minute dt < 60 ∧ 0 ≤ second dt < 60
  ∧ (hour dt * 60 + minute dt) * 60 + second dt = (ctime / 1000) mod 86400.
Proof.
  unfold fromtimestamp_utc. cbv zeta.
  destruct (civil_from_days (ctime / 1000 / 86400)) as [[y m] d].
  destruct (_ && _); [|done]. intros [= <-]. simpl.
  Z.div_mod_to_equations. lia.
Qed.

Lemma mapM_length {A B} (f : A → result B) (l : list A) (ys : list B) :
  mapM f l = Return ys → length ys = length l.
Proof. intros Hys%mapM_inv. by rewrite (Forall2_length _ _ _ Hys). Qed.

Lemma mapM_snd {A B C} (f : B → result C) (l : list (A * B)) :
  mapM (λ kx, f kx.2) l = mapM f l.*2.
Proof. induction l as [|kx l IH]; simpl; [done|]. by rewrite IH. Qed.

(** Sorting on integer keys does not raise and gives a permutation in
    ascending key order. *)
Lemma sorted_by_key_perm {A} (l s : list (Z * A)) :
  sorted (λ a b, Return (a.1 <? b.1)) l = Return s →
  s ≡ₚ l ∧ StronglySorted (λ a b, a.1 ≤ b.1) s.
Proof.
  intros Hs.
  destruct (sorted_spec (λ a b : Z * A, Return (a.1 <? b.1))
              (λ a b, a.1 ≤ b.1) (λ _, True)) with (l := l)
    as (s' & Hs' & Hperm & Hsorted).
  { intros a b _ _. exists (a.1 <? b.1). split; [done|].
    destruct (Z.ltb_spec a.1 b.1); lia. }
  { intros a b c. lia. }
  { by apply Forall_forall. }
  by assert (s' = s) as -> by congruence.
Qed.

(** A list already in ascending key order is returned as it is: records
    with equal keys keep their order. *)
Lemma sorted_by_key_ascending {A} (l : list (Z * A)) :
  StronglySorted (λ a b, a.1 ≤ b.1) l →
  sorted (λ a b, Return (a.1 <? b.1)) l = Return l.
Proof.
  induction 1 as [|x l Hs IH Hall]; [done|].
  cbn [sorted]. rewrite IH. cbn [bind].
  destruct l as [|y l]; [done|]. cbn [insert_sorted bind].
  apply Forall_cons in Hall as [Hxy _].
  by destruct (Z.ltb_spec y.1 x.1); [lia|].
Qed.

Section normalizer_more.
Context `{PyLib}.

Lemma keyed_inv (trades : list json) (keyed : list (Z * json)) :
  mapM (λ x, let* k := ctime_of x in Return (k, x)) trades = Return keyed →
  keyed.*2 = trades ∧ Forall (λ kx, ctime_of kx.2 = Return kx.1) keyed.
Proof.
  revert keyed. induction trades as [|tr trades IH]; intros keyed; simpl.
  - by intros [= <-].
  - destruct (ctime_of tr) as [c|] eqn:Hc; [|done]. simpl.
    destruct (mapM _ trades) as [keyed'|]; [|done]. simpl.
    intros [= <-]. destruct (IH keyed' eq_refl) as [Hsnd Hkeys].
    split; [by rewrite fmap_cons, Hsnd|by constructor].
Qed.

Lemma transform_row_record (tr : json) (r : row) :
  transform_row tr = Return r → ∃ d, tr = JDict d ∧ row_of_record d r.
Proof.
  unfold transform_row.
  destruct (ctime_of tr) as [c|]; [|done]. cbn [bind].
  destruct (fromtimestamp_utc c) as [dt|] eqn:Hdt; [|done]. cbn [bind].
  destruct tr as [| | | | |d]; try done.
  destruct (get_or_blank d "side") as [| | |side| |] eqn:Hside; try done.
  cbn [bind]. intros [= <-]. exists d. split; [done|].
  unfold row_of_record. simpl.
  split; [by exists side|]. repeat (split; [done|]).
  destruct (fromtimestamp_utc_time_of_day c dt Hdt) as (Hh & Hm & Hs & _).
  rewrite !str_length_append, !two_digits_length by lia. done.
Qed.

Lemma transform_trades_length (trades : list json) (rows : list row) :
  transform_trades trades = Return rows → length rows = length trades.
Proof.
  unfold transform_trades, sorted_by_ctime.
  destruct (mapM _ trades) as [keyed|] eqn:Hkeyed; [|done]. cbn [bind].
  destruct (sorted _ keyed) as [s|] eqn:Hs; [|done]. cbn [bind].
  intros Hrows.
  apply keyed_inv in Hkeyed as [Hsnd _].
  apply sorted_by_key_perm in Hs as [Hperm _].
  rewrite (mapM_length _ _ _ Hrows), (Permutation_length Hperm).
  by rewrite <- Hsnd, length_fmap.
Qed.

(** X15. Whenever [transform_trades] returns, it returns one row per record,
    and every row is the image of one of the records: its symbol, side (in
    upper case), quantity, price and commission are those of the record, or
    blank where the record has none, its spread is 'Crypto', its four
    placeholders are blank, and its time is written on 8 characters. *)
Theorem transform_trades_row_format (trades : list json) (rows : list row) :
  transform_trades trades = Return rows →
  length rows = length trades
  ∧ Forall (λ r, ∃ d, JDict d ∈ trades ∧ transform_row (JDict d) = Return r
                      ∧ row_of_record d r) rows.
Proof.
  intros Hrun. split; [by apply transform_trades_length|].
  revert Hrun. unfold transform_trades, sorted_by_ctime.
  destruct (mapM _ trades) as [keyed|] eqn:Hkeyed; [|done]. cbn [bind].
  destruct (sorted _ keyed) as [s|] eqn:Hs; [|done]. cbn [bind].
  intros Hrows.
  apply keyed_inv in Hkeyed as [Hsnd _].
  apply sorted_by_key_perm in Hs as [Hperm _].
  - apply mapM_inv in Hrows.
    eapply Forall2_Forall_r; [exact Hrows|].
    apply Forall_forall. intros kx Hkx r Hr.
    destruct (transform_row_record kx.2 r Hr) as (d & Hd & Hrow).
    exists d. rewrite <- Hd. split; [|done].
    rewrite <- Hsnd, <- Hperm. apply list_elem_of_fmap. by exists kx.
Qed.

Lemma keyed_ascending (keyed : list (Z * json)) :
  Forall (λ kx, ctime_of kx.2 = Return kx.1) keyed →
  StronglySorted ctime_le keyed.*2 →
  StronglySorted (λ a b, a.1 ≤ b.1) keyed.
Proof.
  induction keyed as [|a keyed IH]; [constructor|].
  rewrite fmap_cons. intros [Ha Hkeys]%Forall_cons [Hs Hall]%StronglySorted_inv.
  constructor; [by apply IH|].
  rewrite Forall_fmap in Hall. rewrite Forall_forall in Hall, Hkeys |- *.
  intros b Hb. destruct (Hall b Hb) as (ca & cb & Hca & Hcb & Hle).
  simpl in Hcb. rewrite Ha in Hca. rewrite (Hkeys b Hb) in Hcb. congruence.
Qed.

(** X16. Records that already come in ascending order of their creation
    timestamps, equal timestamps included, are mapped in the order they
    come in: the sort is stable. *)
Theorem transform_trades_keeps_ascending_order (trades : list json) :
  Forall readable trades →
  StronglySorted ctime_le trades →
  transform_trades trades = mapM transform_row trades.
Proof.
  intros Hread Hsorted. unfold transform_trades, sorted_by_ctime.
  destruct (mapM_Forall2 (λ x, let* k := ctime_of x in Return (k, x))
              (λ _ _, True) trades) as (keyed & Hkeyed & _).
  { eapply Forall_impl; [exact Hread|]. intros tr [c Hc].
    exists (c, tr). by rewrite Hc. }
  rewrite Hkeyed. cbn [bind].
  destruct (keyed_inv trades keyed Hkeyed) as [Hsnd Hkeys].
  rewrite sorted_by_key_ascending by (apply keyed_ascending; by rewrite ?Hsnd).
  cbn [bind]. by rewrite mapM_snd, Hsnd.
Qed.

End normalizer_more.

(** ** Orchestrator, further *)

Section orchestrator_more.
Context `{PyLib}.





End orchestrator_more.

(** ** The unused nonce generator *)

Lemma hex_of_bytes_get (bs : list Z) (i : nat) (b : Z) :
  bs !! i = Some b →
  String.get (2 * i) (hex_of_bytes bs) = Some (hex_digit (b / 16)).
Proof.
  revert i. induction bs as [|b0 bs IH]; intros [|i]; try done.
  - by intros [= ->].
  - intros Hb. replace (2 * S i)%nat with (S (S (2 * i))) by lia.
    change (hex_of_bytes (b0 :: bs))
      with (String (hex_digit (b0 / 16))
              (String (hex_digit (b0 mod 16)) (hex_of_bytes bs))).
    cbn [String.get]. by apply IH.
Qed.

Lemma uuid_version_digit (c : ascii) :
  hex_digit (Z.lor (Z.land (byte_of_ascii c) 0x0f) 0x40 / 16) = "4"%char.
Proof. by destruct c as [[] [] [] [] [] [] [] []]. Qed.

Lemma uuid_variant_digit (c : ascii) :
  hex_digit (Z.lor (Z.land (byte_of_ascii c) 0x3f) 0x80 / 16)
  ∈ ["8"; "9"; "a"; "b"]%char.
Proof.
  destruct c as [[] [] [] [] [] [] [] []]; vm_compute; set_solver.
Qed.

(** X19. [_generate_nonce] returns 32 hexadecimal characters of which two do
    not vary: the 13th is the version digit 4 and the 17th is one of 8, 9, a
    and b, as in every version-4 UUID. It holds 122 random bits, not 128. *)
Theorem generate_nonce_format (w : world) (pos : nat) :
  String.length (_generate_nonce w pos) = 32%nat
  ∧ String.get 12 (_generate_nonce w pos) = Some "4"%char
  ∧ ∃ c, String.get 16 (_generate_nonce w pos) = Some c
         ∧ c ∈ ["8"; "9"; "a"; "b"]%char.
Proof.
  unfold _generate_nonce. cbv zeta.
  set (bs := (λ i, byte_of_ascii (urandom w i)) <$> seq pos 16).
  assert (∀ i, (i < 16)%nat → bs !! i = Some (byte_of_ascii (urandom w (pos + i))))
    as Hbs.
  { intros i Hi. unfold bs. rewrite list_lookup_fmap, lookup_seq_lt; done. }
  set (f6 := λ b, Z.lor (Z.land b 0x0f) 0x40).
  set (f8 := λ b, Z.lor (Z.land b 0x3f) 0x80).
  assert (alter f6 6%nat (alter f8 8%nat bs) !! 6%nat
          = Some (f6 (byte_of_ascii (urandom w (pos + 6))))) as H6.
  { by rewrite list_lookup_alter_eq, list_lookup_alter_ne, Hbs by lia. }
  assert (alter f6 6%nat (alter f8 8%nat bs) !! 8%nat
          = Some (f8 (byte_of_ascii (urandom w (pos + 8))))) as H8.
  { by rewrite list_lookup_alter_ne, list_lookup_alter_eq, Hbs by lia. }
  split; [|split].
  - rewrite hex_of_bytes_length, !length_alter. unfold bs.
    by rewrite length_fmap, length_seq.
  - etrans; [exact (hex_of_bytes_get _ 6 _ H6)|]. unfold f6.
    by rewrite uuid_version_digit.
  - eexists. split; [exact (hex_of_bytes_get _ 8 _ H8)|].
    apply uuid_variant_digit.
Qed.

(** ** Worked runs of the further properties *)

Lemma fetch_trades_clean_run_witness :
  fetch_trades 2 Demo.client Demo.two_pages 1000
  = Some (Return (newer 1000
                    (concat [replicate 100 (Demo.trade (JInt 2000))]
                       ++ [Demo.trade (JInt 1000); Demo.trade (JStr "3000");
                           Demo.trade (JInt 2500)])))
  ∧ param_skip <$> reverse (fetch_trades_sent 2 Demo.client Demo.two_pages 1000).1
    = [0; 100].
Proof.
  apply (fetch_trades_clean_run 2 Demo.client Demo.two_pages 1000
           [replicate 100 (Demo.trade (JInt 2000))]
           [Demo.trade (JInt 1000); Demo.trade (JStr "3000");
            Demo.trade (JInt 2500)]).
  - intros [|i] page Hp; [|done].
    change (Some (replicate 100 (Demo.trade (JInt 2000))) = Some page) in Hp.
    apply (inj Some) in Hp. subst page. split; [|split].
    + intros rq. eexists. split; [reflexivity|]. by split.
    + by rewrite length_replicate.
    + apply Forall_replicate. by exists 2000.
  - intros rq. eexists. split; [reflexivity|]. by split.
  - simpl. lia.
  - repeat (apply Forall_cons_2 || apply Forall_nil_2); by eexists.
  - simpl. lia.
Defined.

Lemma fetch_trades_unbounded_witness :
  fetch_trades 50 Demo.client Demo.endless 1000 = None.
Proof.
  apply (fetch_trades_unbounded 50 Demo.client Demo.endless 1000).
  intros n. exists (replicate 100 (Demo.trade (JInt 2000))). split; [|split].
  - intros rq. eexists. split; [reflexivity|]. by split.
  - by rewrite length_replicate.
  - apply Forall_replicate. by exists 2000.
Defined.

Lemma fetch_trades_later_checkpoint_witness :
  fetch_trades 3 Demo.client Demo.two_pages 2000
  = Some (Return (newer 2000
                    (replicate 100 (Demo.trade (JInt 2000))
                       ++ [Demo.trade (JStr "3000"); Demo.trade (JInt 2500)]))).
Proof.
  apply (fetch_trades_later_checkpoint 3 Demo.client Demo.client
           Demo.two_pages Demo.two_pages 1000 2000).
  - lia.
  - reflexivity.
  - reflexivity.
Defined.

Lemma fetch_trades_unreadable_entry_witness :
  fetch_trades 1 Demo.client Demo.unreadable 1000
  = Some (Return ([] ++ newer 1000 [Demo.trade (JInt 2000)])).
Proof.
  apply (fetch_trades_unreadable_entry 1 0 Demo.client Demo.unreadable 1000 0
           [] [Demo.trade (JInt 2000)] [Demo.trade (JInt 3000)]
           (Demo.trade JNull) TypeError).
  - reflexivity.
  - intros rq. eexists. split; [reflexivity|]. by split.
  - apply Forall_singleton. by exists 2000.
  - reflexivity.
  - lia.
Defined.

Lemma sign_request_length_witness :
  ∃ sign,
    sign_request Demo.client "abcd" "1700000000000" (Some Demo.params) None
    = Return sign
    ∧ String.length sign = 64%nat.
Proof.
  assert (sign_request Demo.client "abcd" "1700000000000" (Some Demo.params) None
          = Return "5fb21e8c9067019909b86e7c408c534b31c81523325162abdc8462bec9bd410c")
    as Hrun by (vm_compute; reflexivity).
  eexists. split; [exact Hrun|].
  exact (sign_request_length _ _ _ _ _ _ Hrun).
Defined.

Lemma sign_request_raises_iff_witness :
  sign_request Demo.client "abcd" "1700000000000" (Some Demo.params) (Some "{")
  = Raise ValueError.
Proof.
  apply (sign_request_raises_iff Demo.client "abcd" "1700000000000"
           (Some Demo.params) (Some "{") ValueError).
  - unfold is_dict. simpl. by apply (bool_decide_unpack _).
  - split; [done|]. exists "{". split; [done|]. split; [done|].
    vm_compute. reflexivity.
Defined.

Lemma transform_trades_row_format_witness :
  ∃ rows,
    transform_trades [Demo.trade (JStr "3000"); JDict ∅] = Return rows
    ∧ length rows = 2%nat
    ∧ Forall (λ r, ∃ d, JDict d ∈ [Demo.trade (JStr "3000"); JDict ∅]
                        ∧ transform_row (JDict d) = Return r
                        ∧ row_of_record d r) rows.
Proof.
  destruct (transform_trades [Demo.trade (JStr "3000"); JDict ∅])
    as [rows|] eqn:Hrows; [|by vm_compute in Hrows].
  exists rows. split; [done|].
  exact (transform_trades_row_format _ _ Hrows).
Defined.

Lemma transform_trades_keeps_ascending_order_witness :
  transform_trades
    [Demo.trade_of "ETHUSDT" 5; Demo.trade_of "BTCUSDT" 5; Demo.trade_of "XRPUSDT" 7]
  = mapM transform_row
      [Demo.trade_of "ETHUSDT" 5; Demo.trade_of "BTCUSDT" 5;
       Demo.trade_of "XRPUSDT" 7].
Proof.
  apply transform_trades_keeps_ascending_order.
  - repeat (apply Forall_cons_2 || apply Forall_nil_2); by eexists.
  - repeat (apply SSorted_cons || apply SSorted_nil
            || apply Forall_cons_2 || apply Forall_nil_2).
    all: do 2 eexists; split; [reflexivity|]; split; [reflexivity|]; lia.
Defined.



